(** * Usage analytics of the pyroscope server: snapshot, merge, report, lifecycle

    A shallow embedding of [pkg/storage/analytics.go] (the [Analytics]
    record and its persistence) and of package [analytics] (the [Service]
    with [Start], [Stop], [mergeAnalytics], [getAnalytics] and
    [sendReport]), followed by the properties established about them.

    Conventions.
    - A Go [int] is a 64-bit two's complement integer, carried as a [Z]
      with the wrap-around of arithmetic written out ([wrap64]).
    - A call that can panic returns a [Result]: [Ok v] or [Panic msg].
    - A Go pointer is a [Ptr]: [None] is [nil].
    - Everything the service reads from its surroundings (memory
      statistics, disk usage, the stats provider, the clock, the outcome
      of the HTTP exchange) is an explicit argument.
    - The goroutine running [Start] and the caller of [Stop] are two
      program counters over one shared [Service]; one labelled step is
      one statement or one cycle of the loop. *)

From Stdlib Require Import ZArith String List Lia.
From stdpp Require Import base option list strings gmap.

Local Open Scope Z_scope.
Local Open Scope string_scope.
Local Open Scope list_scope.

(** ** Go runtime values *)

Module go.

Definition error := string.

(** [Ok v]: normal return. [Panic msg]: a run-time panic unwinds the
    calling goroutine. *)
Inductive Result (A : Type) : Type :=
| Ok (v : A)
| Panic (msg : string).
Arguments Ok {A} v.
Arguments Panic {A} msg.

Definition bind {A B} (r : Result A) (k : A -> Result B) : Result B :=
  match r with
  | Ok v => k v
  | Panic msg => Panic msg
  end.

Definition Ptr (A : Type) := option A.

Definition nil_dereference : string :=
  "runtime error: invalid memory address or nil pointer dereference".

(** [*p] *)
Definition deref {A} (p : Ptr A) : Result A :=
  match p with
  | Some v => Ok v
  | None => Panic nil_dereference
  end.

Definition max_int : Z := 2 ^ 63 - 1.
Definition min_int : Z := - 2 ^ 63.

(** Reduction of a mathematical integer to the 64-bit signed range:
    what [+] on [int]/[int64] and a conversion [int(x)] compute. *)
Definition wrap64 (z : Z) : Z := (z + 2 ^ 63) mod 2 ^ 64 - 2 ^ 63.

(** [m[k]] on a [map[string]V] with integer values: the zero value when
    the key is absent. *)
Definition index (m : gmap string Z) (k : string) : Z := default 0 (m !! k).

(** [[]byte], each byte carried as a [Z]. *)
Definition bytes := list Z.

(** [time.Time]: the wall and monotonic clock readings and the location
    pointer (an address, [0] for [nil]). *)
Record Time := { wall : Z; ext : Z; loc : Z }.

Definition Time_zero : Time := {| wall := 0; ext := 0; loc := 0 |}.

End go.

Import go.

Declare Scope go_scope.
Delimit Scope go_scope with go.
Notation "x <- e ;; k" := (go.bind e (fun x => k))
  (at level 100, e at next level, right associativity) : go_scope.
Notation "e ;;; k" := (go.bind e (fun _ => k))
  (at level 100, right associativity) : go_scope.
Local Open Scope go_scope.

(** ** [storage.Analytics] *)

Module storage.

Record Analytics := {
  InstallID : string;
  RunID : string;
  Version : string;
  Timestamp : Time;
  UploadIndex : Z;
  GOOS : string;
  GOARCH : string;
  GoVersion : string;
  MemAlloc : Z;
  MemTotalAlloc : Z;
  MemSys : Z;
  MemNumGC : Z;
  BadgerMain : Z;
  BadgerTrees : Z;
  BadgerDicts : Z;
  BadgerDimensions : Z;
  BadgerSegments : Z;
  ControllerIndex : Z;
  ControllerComparison : Z;
  ControllerDiff : Z;
  ControllerIngest : Z;
  ControllerRender : Z;
  SpyRbspy : Z;
  SpyPyspy : Z;
  SpyGospy : Z;
  SpyEbpfspy : Z;
  SpyPhpspy : Z;
  SpyDotnetspy : Z;
  SpyJavaspy : Z;
  AppsCount : Z
}.

(** [Analytics{}] *)
Definition Analytics_zero : Analytics := {|
  InstallID := ""; RunID := ""; Version := ""; Timestamp := Time_zero;
  UploadIndex := 0; GOOS := ""; GOARCH := ""; GoVersion := "";
  MemAlloc := 0; MemTotalAlloc := 0; MemSys := 0; MemNumGC := 0;
  BadgerMain := 0; BadgerTrees := 0; BadgerDicts := 0;
  BadgerDimensions := 0; BadgerSegments := 0;
  ControllerIndex := 0; ControllerComparison := 0; ControllerDiff := 0;
  ControllerIngest := 0; ControllerRender := 0;
  SpyRbspy := 0; SpyPyspy := 0; SpyGospy := 0; SpyEbpfspy := 0;
  SpyPhpspy := 0; SpyDotnetspy := 0; SpyJavaspy := 0; AppsCount := 0
|}.

End storage.

Import storage.

(** ** The part of package [reflect] that [mergeAnalytics] calls *)

Module reflect.

Inductive Kind :=
| Invalid | Bool
| Int | Int8 | Int16 | Int32 | Int64
| Uint | Uint8 | Uint16 | Uint32 | Uint64
| Float32 | Float64
| String | Struct | Pointer.

(** A struct tag in parsed form: the pairs [key:"value"] in the order
    they are written. *)
Definition StructTag := list (string * string).

(** [StructTag.Lookup]: the value of the first pair with that key. *)
Fixpoint Lookup (tag : StructTag) (key : string) : option string :=
  match tag with
  | [] => None
  | (k, v) :: rest => if String.eqb k key then Some v else Lookup rest key
  end.

(** [reflect.StructField], with the two members the program reads. *)
Record StructField := { Name : string; Tag : StructTag }.

(** [reflect.Type]: its name, its kind and, for a struct, its fields. *)
Record Type_ := { tName : string; tKind : Kind; tFields : list StructField }.

(** [reflect.Value]. Every [Value] of the program comes from
    [reflect.ValueOf] applied to a struct passed by value, or from a
    field of one, so none is addressable. *)
#[local] Set Warnings "-register-all".
Inductive Value :=
| VZero                                    (* Value{}, kind Invalid *)
| VInt (k : Kind) (n : Z)                  (* any integer kind *)
| VString (s : string)
| VPtr (addr : Z)
| VStruct (name : string) (fields : list (StructField * Value)).

Definition kind_name (k : Kind) : string :=
  match k with
  | Invalid => "invalid" | Bool => "bool"
  | Int => "int" | Int8 => "int8" | Int16 => "int16"
  | Int32 => "int32" | Int64 => "int64"
  | Uint => "uint" | Uint8 => "uint8" | Uint16 => "uint16"
  | Uint32 => "uint32" | Uint64 => "uint64"
  | Float32 => "float32" | Float64 => "float64"
  | String => "string" | Struct => "struct" | Pointer => "ptr"
  end.

(** [Value.Type] *)
Definition TypeOf (v : Value) : Result Type_ :=
  match v with
  | VZero => Panic "reflect: call of reflect.Value.Type on zero Value"
  | VInt k _ => Ok {| tName := kind_name k; tKind := k; tFields := [] |}
  | VString _ => Ok {| tName := "string"; tKind := String; tFields := [] |}
  | VPtr _ => Ok {| tName := ""; tKind := Pointer; tFields := [] |}
  | VStruct name fs =>
      Ok {| tName := name; tKind := Struct; tFields := map fst fs |}
  end.

(** [Value.NumField] *)
Definition NumField (v : Value) : Result nat :=
  match v with
  | VStruct _ fs => Ok (length fs)
  | _ => Panic "reflect: call of reflect.Value.NumField on non-struct Value"
  end.

(** [Value.Field] *)
Definition Field (v : Value) (i : nat) : Result Value :=
  match v with
  | VStruct _ fs =>
      match nth_error fs i with
      | Some (_, x) => Ok x
      | None => Panic "reflect: Field index out of range"
      end
  | _ => Panic "reflect: call of reflect.Value.Field on non-struct Value"
  end.

Fixpoint find_field (fs : list (StructField * Value)) (name : string)
  : option Value :=
  match fs with
  | [] => None
  | (f, x) :: rest =>
      if String.eqb (Name f) name then Some x else find_field rest name
  end.

(** [Value.FieldByName]: the zero [Value] when no field has that name. *)
Definition FieldByName (v : Value) (name : string) : Result Value :=
  match v with
  | VStruct _ fs => Ok (default VZero (find_field fs name))
  | _ => Panic "reflect: call of reflect.Value.FieldByName on non-struct Value"
  end.

(** [Type.Field] *)
Definition TField (t : Type_) (i : nat) : Result StructField :=
  match tKind t with
  | Struct =>
      match nth_error (tFields t) i with
      | Some f => Ok f
      | None => Panic "reflect: Field index out of bounds"
      end
  | _ => Panic "reflect: Field of non-struct type"
  end.

(** [Value.Int] *)
Definition Int_ (v : Value) : Result Z :=
  match v with
  | VInt Int n | VInt Int8 n | VInt Int16 n | VInt Int32 n | VInt Int64 n =>
      Ok n
  | _ => Panic "reflect: call of reflect.Value.Int on non-int Value"
  end.

(** [Value.SetInt]: the assignability check comes first, and no [Value]
    of the program passes it. *)
Definition SetInt (v : Value) (x : Z) : Result unit :=
  match v with
  | VZero => Panic "reflect: call of reflect.Value.SetInt on zero Value"
  | _ => Panic "reflect: reflect.Value.SetInt using unaddressable value"
  end.

(** The fields of [storage.Analytics] as [reflect] sees them, with the
    tags of the declaration. *)
Definition gauge (name json : string) : StructField :=
  {| Name := name; Tag := [("json", json)] |}.

Definition counter (name json : string) : StructField :=
  {| Name := name; Tag := [("json", json); ("type", "counter")] |}.

Definition ValueOf_Time (t : Time) : Value :=
  VStruct "Time"
    [ ({| Name := "wall"; Tag := [] |}, VInt Uint64 (wall t));
      ({| Name := "ext"; Tag := [] |}, VInt Int64 (ext t));
      ({| Name := "loc"; Tag := [] |}, VPtr (loc t)) ].

(** [reflect.ValueOf(a)] for [a] of type [storage.Analytics] *)
Definition ValueOf (a : Analytics) : Value :=
  VStruct "Analytics"
    [ (gauge "InstallID" "install_id", VString (InstallID a));
      (gauge "RunID" "run_id", VString (RunID a));
      (gauge "Version" "version", VString (Version a));
      (gauge "Timestamp" "timestamp", ValueOf_Time (Timestamp a));
      (gauge "UploadIndex" "upload_index", VInt Int (UploadIndex a));
      (gauge "GOOS" "goos", VString (GOOS a));
      (gauge "GOARCH" "goarch", VString (GOARCH a));
      (gauge "GoVersion" "go_version", VString (GoVersion a));
      (gauge "MemAlloc" "mem_alloc", VInt Int (MemAlloc a));
      (gauge "MemTotalAlloc" "mem_total_alloc", VInt Int (MemTotalAlloc a));
      (gauge "MemSys" "mem_sys", VInt Int (MemSys a));
      (gauge "MemNumGC" "mem_num_gc", VInt Int (MemNumGC a));
      (counter "BadgerMain" "badger_main", VInt Int (BadgerMain a));
      (counter "BadgerTrees" "badger_trees", VInt Int (BadgerTrees a));
      (counter "BadgerDicts" "badger_dicts", VInt Int (BadgerDicts a));
      (counter "BadgerDimensions" "badger_dimensions",
        VInt Int (BadgerDimensions a));
      (counter "BadgerSegments" "badger_segments", VInt Int (BadgerSegments a));
      (gauge "ControllerIndex" "controller_index", VInt Int (ControllerIndex a));
      (gauge "ControllerComparison" "controller_comparison",
        VInt Int (ControllerComparison a));
      (gauge "ControllerDiff" "controller_diff", VInt Int (ControllerDiff a));
      (gauge "ControllerIngest" "controller_ingest",
        VInt Int (ControllerIngest a));
      (gauge "ControllerRender" "controller_render",
        VInt Int (ControllerRender a));
      (gauge "SpyRbspy" "spy_rbspy", VInt Int (SpyRbspy a));
      (gauge "SpyPyspy" "spy_pyspy", VInt Int (SpyPyspy a));
      (gauge "SpyGospy" "spy_gospy", VInt Int (SpyGospy a));
      (gauge "SpyEbpfspy" "spy_ebpfspy", VInt Int (SpyEbpfspy a));
      (gauge "SpyPhpspy" "spy_phpspy", VInt Int (SpyPhpspy a));
      (gauge "SpyDotnetspy" "spy_dotnetspy", VInt Int (SpyDotnetspy a));
      (gauge "SpyJavaspy" "spy_javaspy", VInt Int (SpyJavaspy a));
      (gauge "AppsCount" "apps_count", VInt Int (AppsCount a)) ].

End reflect.

(** ** [mergeAnalytics] *)

Module analytics_merge.

Import reflect.

(** The kinds of the [case] at line 115. *)
Definition summable (k : Kind) : bool :=
  match k with
  | Int | Int8 | Int16 | Int32 | Int64 => true
  | _ => false
  end.

(** One iteration of the loop of [mergeAnalytics], at index [i].
    [fieldtype] is [bs.Type()], the type of the whole struct: its [Name]
    and its [Kind] are those of the struct, and only [fieldtype.Field(i)]
    is about the field at hand. *)
Definition merge_iteration (bs cu ret : Value) (i : nat) : Result unit :=
  field <- Field bs i ;;
  fieldtype <- TypeOf bs ;;
  fieldCurrent <- FieldByName cu (tName fieldtype) ;;
  fieldRet <- FieldByName ret (tName fieldtype) ;;
  sf <- TField fieldtype i ;;
  match Lookup (Tag sf) "type" with
  | Some t =>
      if String.eqb t "counter" then
        if summable (tKind fieldtype) then
          x <- Int_ field ;;
          y <- Int_ fieldCurrent ;;
          SetInt fieldRet (wrap64 (x + y))
        else Ok tt
      else Ok tt
  | None => Ok tt
  end.

(** [for i := 0; i < bs.NumField(); i++ { ... }]: the body at each index
    in turn, the first panic ending the loop. *)
Fixpoint merge_indices (bs cu ret : Value) (indices : list nat)
  : Result unit :=
  match indices with
  | [] => Ok tt
  | i :: rest =>
      merge_iteration bs cu ret i ;;; merge_indices bs cu ret rest
  end.

Definition merge_loop (bs cu ret : Value) : Result unit :=
  n <- NumField bs ;;
  merge_indices bs cu ret (seq 0 n).

(** [mergeAnalytics]. [ret] is the [Value] of a copy of [retv]; the
    function returns [&retv]. *)
Definition mergeAnalytics (baseline current : Ptr Analytics)
  : Result Analytics :=
  let retv := Analytics_zero in
  c <- deref current ;;
  let cu := ValueOf c in
  b <- deref baseline ;;
  let bs := ValueOf b in
  let ret := ValueOf retv in
  merge_loop bs cu ret ;;;
  Ok retv.

End analytics_merge.

(** ** Persistence of the snapshot: [SaveAnalytics] and [ReadAnalytics] *)

(** [encoding/json] on [Analytics], left open: [json.Marshal(a)] gives
    the encoding and an error; [json.Unmarshal(val, &a)] updates [a] in
    place and gives an error. *)
Class JSON := {
  json_Marshal : Analytics -> bytes * option error;
  json_Unmarshal : bytes -> Analytics -> Analytics * option error
}.

(** The part of badger (v2) that the storage calls, over a key-value
    map. [Txn.Get] gives a [nil] item together with [ErrKeyNotFound]
    when the key is absent; [Item.Value] reads the members of its
    receiver before it calls [fn]. *)
Module badger.

Record Item := { val : bytes }.

Definition ErrKeyNotFound : error := "Key not found".

(** [txn.Get(key)] *)
Definition Get (db : gmap string bytes) (key : string)
  : Ptr Item * option error :=
  match db !! key with
  | Some v => (Some {| val := v |}, None)
  | None => (None, Some ErrKeyNotFound)
  end.

(** [item.Value(fn)]: [fn] applied to the stored bytes; what [fn] leaves
    in the variables it captures is the result. *)
Definition Value {A} (item : Ptr Item) (fn : bytes -> A) : Result A :=
  it <- deref item ;;
  Ok (fn (val it)).

(** [txn.SetEntry(NewEntry(key, v))] inside [db.Update], committed. *)
Definition SetEntry (db : gmap string bytes) (key : string) (v : bytes)
  : gmap string bytes :=
  <[key := v]> db.

End badger.

Module storage_db.

(** [storage.Storage], with the database the analytics are kept in. *)
Record Storage := { main : gmap string bytes }.

Section WithJSON.
Context {codec : JSON}.

(** [SaveAnalytics]: the errors of [json.Marshal] and of [Update] are
    dropped. *)
Definition SaveAnalytics (s : Storage) (a : Analytics) : Storage :=
  let v := fst (json_Marshal a) in
  {| main := badger.SetEntry (main s) "analytics" v |}.

(** [ReadAnalytics]: [v.Value] is called whatever [e] is; the error the
    closure returns is dropped by the caller of [View]. *)
Definition ReadAnalytics (s : Storage) : Result Analytics :=
  let a := Analytics_zero in
  let (v, e) := badger.Get (main s) "analytics" in
  r <- badger.Value v (fun val => json_Unmarshal val a) ;;
  Ok (fst r).

End WithJSON.

End storage_db.

(** ** The analytics service *)

Module analytics.

Import storage_db analytics_merge.

Definition url : string := "https://analytics.pyroscope.io/api/events".

(** [StatsProvider]: what the two methods of the interface answer when
    they are called. *)
Record StatsProvider := { Stats : gmap string Z; AppsCount_ : Z }.

(** [runtime.MemStats], the members read. *)
Record MemStats := { Alloc : Z; TotalAlloc : Z; Sys : Z; NumGC : Z }.

(** What one call of [getAnalytics] reads from outside the service.
    [DiskUsage] holds [int(du[k])] for each category [k]. *)
Record Env := {
  ms : MemStats;
  DiskUsage : gmap string Z;
  p : StatsProvider;
  InstallID_ : string;
  uuid_New : string;
  build_Version : string;
  time_Now : Time;
  runtime_GOOS : string;
  runtime_GOARCH : string;
  runtime_Version : string
}.

(** [http.Response], as far as it is looked at: [ReadAll_err] is the
    error of [io.ReadAll(resp.Body)]. [StatusCode] is never read. *)
Record Response := { StatusCode : Z; ReadAll_err : option error }.

(** The outcome of [httpClient.Post]. *)
Record Net := { resp : Ptr Response; err : option error }.

(** [Service]: [stop] and [done] are channels that are only ever
    closed, [true] once closed. [s_] is the storage behind [s.s]. *)
Record Service := {
  s_ : Storage;
  uploads : Z;
  stop : bool;
  done : bool;
  baseline : Ptr Analytics
}.

(** [NewService] *)
Definition NewService (s : Storage) : Service :=
  {| s_ := s; uploads := 0; stop := false; done := false; baseline := None |}.

Inductive Level := Debug | Error.

(** What a run does that can be seen from outside, in order. [E_Merge]
    marks a call of [mergeAnalytics] with its arguments. *)
Inductive Event :=
| E_Log (lvl : Level) (msg : string)
| E_Post (to contentType : string) (body : bytes)
| E_ReadAll
| E_Save (a : Analytics)
| E_Merge (b : Ptr Analytics) (c : Analytics).

(** [getAnalytics] *)
Definition getAnalytics (e : Env) (s : Service) : Analytics :=
  let du := DiskUsage e in
  let controllerStats := Stats (p e) in
  {| InstallID := InstallID_ e;
     RunID := uuid_New e;
     Version := build_Version e;
     Timestamp := time_Now e;
     UploadIndex := uploads s;
     GOOS := runtime_GOOS e;
     GOARCH := runtime_GOARCH e;
     GoVersion := runtime_Version e;
     MemAlloc := wrap64 (Alloc (ms e));
     MemTotalAlloc := wrap64 (TotalAlloc (ms e));
     MemSys := wrap64 (Sys (ms e));
     MemNumGC := wrap64 (NumGC (ms e));
     BadgerMain := index du "main";
     BadgerTrees := index du "trees";
     BadgerDicts := index du "dicts";
     BadgerDimensions := index du "dimensions";
     BadgerSegments := index du "segments";
     ControllerIndex := index controllerStats "index";
     ControllerComparison := index controllerStats "comparison";
     ControllerDiff := index controllerStats "diff";
     ControllerIngest := index controllerStats "ingest";
     ControllerRender := index controllerStats "render";
     SpyRbspy := index controllerStats "ingest:rbspy";
     SpyPyspy := index controllerStats "ingest:pyspy";
     SpyGospy := index controllerStats "ingest:gospy";
     SpyEbpfspy := index controllerStats "ingest:ebpfspy";
     SpyPhpspy := index controllerStats "ingest:phpspy";
     SpyDotnetspy := index controllerStats "ingest:dotnetspy";
     SpyJavaspy := index controllerStats "ingest:javaspy";
     AppsCount := AppsCount_ (p e) |}.

Definition set_uploads (s : Service) (n : Z) : Service :=
  {| s_ := s_ s; uploads := n; stop := stop s; done := done s;
     baseline := baseline s |}.

Definition set_store (s : Service) (st : Storage) : Service :=
  {| s_ := st; uploads := uploads s; stop := stop s; done := done s;
     baseline := baseline s |}.

Definition set_baseline (s : Service) (b : Ptr Analytics) : Service :=
  {| s_ := s_ s; uploads := uploads s; stop := stop s; done := done s;
     baseline := b |}.

Definition close_stop (s : Service) : Service :=
  {| s_ := s_ s; uploads := uploads s; stop := true; done := done s;
     baseline := baseline s |}.

Definition close_done (s : Service) : Service :=
  {| s_ := s_ s; uploads := uploads s; stop := stop s; done := true;
     baseline := baseline s |}.

Definition log_error (msg : string) : Event := E_Log Error msg.

(** The three error messages of [sendReport]. *)
Definition log_json : Event :=
  log_error "Error happened when preparing JSON".
Definition log_upload : Event :=
  log_error "Error happened when uploading anonymized usage data".
Definition log_body : Event :=
  log_error "Error happened when uploading reading server response".

Section WithJSON.
Context {codec : JSON}.

(** [sendReport]: the service afterwards and what was done. *)
Definition sendReport (e : Env) (n : Net) (s : Service)
  : Result (Service * list Event) :=
  let ev := [E_Log Debug "sending analytics report"] in
  let m := getAnalytics e s in
  let ev := ev ++ [E_Merge (baseline s) m] in
  m <- mergeAnalytics (baseline s) (Some m) ;;
  let (buf, err) := json_Marshal m in
  match err with
  | Some _ =>
      Ok (s, ev ++ [log_error "Error happened when preparing JSON"])
  | None =>
      let ev := ev ++ [E_Post url "application/json" buf] in
      let ev :=
        match analytics.err n with
        | Some _ =>
            ev ++ [log_error
                     "Error happened when uploading anonymized usage data"]
        | None => ev
        end in
      match resp n with
      | Some r =>
          let ev := ev ++ [E_ReadAll] in
          match ReadAll_err r with
          | Some _ =>
              Ok (s, ev ++ [log_error
                     "Error happened when uploading reading server response"])
          | None => Ok (set_uploads s (wrap64 (uploads s + 1)), ev)
          end
      | None => Ok (set_uploads s (wrap64 (uploads s + 1)), ev)
      end
  end.

(** The cycle of the [snapshot] ticker, lines 93 to 95. *)
Definition snapshot_cycle (e : Env) (s : Service)
  : Result (Service * list Event) :=
  let m := getAnalytics e s in
  let ev := [E_Merge (baseline s) m] in
  m <- mergeAnalytics (baseline s) (Some m) ;;
  Ok (set_store s (SaveAnalytics (s_ s) m), ev ++ [E_Save m]).

(** The first statement of [Stop], line 125. *)
Definition Stop_save (e : Env) (s : Service) : Service * list Event :=
  let m := getAnalytics e s in
  (set_store s (SaveAnalytics (s_ s) m), [E_Save m]).

End WithJSON.

End analytics.

(** ** The life of a service: [Start] in its goroutine, [Stop] in its caller *)

Module lifecycle.

Import storage_db analytics_merge analytics.

(** Where the goroutine that runs [Start] stands. *)
Inductive StartPc :=
| NotStarted        (* before line 76 *)
| AwaitingGrace     (* in the select of line 79 *)
| Running           (* in the select of line 89 *)
| ReturnedGrace     (* returned at line 81 *)
| ReturnedLoop.     (* returned at line 97 *)

(** Where the caller of [Stop] stands. *)
Inductive StopPc :=
| Idle              (* outside [Stop] *)
| Saved             (* line 125 done *)
| Waiting.          (* line 126 done, receiving from [done] at line 127 *)

(** The service, the two program counters, how many calls of [Stop]
    have returned, whether the grace timer has fired, what has been done
    so far, and the panic that ended the process, if any. *)
Record World := {
  svc : Service;
  start_pc : StartPc;
  stop_pc : StopPc;
  stops_returned : nat;
  timer_fired : bool;
  trace : list Event;
  panicked : option string
}.

(** A service just built by [NewService] over the storage [st]. *)
Definition fresh (st : Storage) : World :=
  {| svc := NewService st; start_pc := NotStarted; stop_pc := Idle;
     stops_returned := 0; timer_fired := false; trace := [];
     panicked := None |}.

(** One step of one of the two parties, or of the timer. A cycle of the
    loop carries what it reads from outside. *)
Inductive Label :=
| L_start                                (* lines 76 to 78 *)
| L_timer_fire                           (* the timer of line 78 fires *)
| L_grace_stop                           (* lines 80, 81 *)
| L_grace_timer (e : Env) (n : Net)      (* lines 82 to 86 *)
| L_upload (e : Env) (n : Net)           (* lines 90, 91 *)
| L_snapshot (e : Env)                   (* lines 92 to 95 *)
| L_loop_stop                            (* lines 96, 97 *)
| L_stop_save (e : Env)                  (* line 125 *)
| L_stop_close                           (* line 126 *)
| L_stop_wait.                           (* line 127 *)

Definition goroutine (w : World) (s : Service) (pc : StartPc)
  (ev : list Event) : World :=
  {| svc := s; start_pc := pc; stop_pc := stop_pc w;
     stops_returned := stops_returned w; timer_fired := timer_fired w;
     trace := trace w ++ ev; panicked := panicked w |}.

Definition caller (w : World) (s : Service) (pc : StopPc) (returned : nat)
  (ev : list Event) : World :=
  {| svc := s; start_pc := start_pc w; stop_pc := pc;
     stops_returned := returned; timer_fired := timer_fired w;
     trace := trace w ++ ev; panicked := panicked w |}.

(** A panic: the deferred [close(s.done)] of line 76 runs when it is the
    goroutine of [Start] that panics, then the process ends. *)
Definition crash (w : World) (s : Service) (msg : string) : World :=
  {| svc := s; start_pc := start_pc w; stop_pc := stop_pc w;
     stops_returned := stops_returned w; timer_fired := timer_fired w;
     trace := trace w; panicked := Some msg |}.

Definition fire (w : World) : World :=
  {| svc := svc w; start_pc := start_pc w; stop_pc := stop_pc w;
     stops_returned := stops_returned w; timer_fired := true;
     trace := trace w; panicked := panicked w |}.

Section WithJSON.
Context {codec : JSON}.

(** A cycle of the goroutine that ends in the loop of line 88. *)
Definition cycle (w : World) (r : Result (Service * list Event)) : World :=
  match r with
  | Ok (s, ev) => goroutine w s Running ev
  | Panic msg => crash w (close_done (svc w)) msg
  end.

(** [step l w]: the world after [l], or [None] when [l] cannot be taken
    in [w]. *)
Definition step (l : Label) (w : World) : option World :=
  match panicked w with
  | Some _ => None
  | None =>
      let s := svc w in
      match l, start_pc w, stop_pc w with
      | L_start, NotStarted, _ =>
          match ReadAnalytics (s_ s) with
          | Ok a => Some (goroutine w (set_baseline s (Some a)) AwaitingGrace [])
          | Panic msg => Some (crash w (close_done s) msg)
          end
      | L_timer_fire, AwaitingGrace, _ =>
          if timer_fired w then None else Some (fire w)
      | L_grace_stop, AwaitingGrace, _ =>
          if stop s then Some (goroutine w (close_done s) ReturnedGrace [])
          else None
      | L_grace_timer e n, AwaitingGrace, _ =>
          if timer_fired w then Some (cycle w (sendReport e n s)) else None
      | L_upload e n, Running, _ => Some (cycle w (sendReport e n s))
      | L_snapshot e, Running, _ => Some (cycle w (snapshot_cycle e s))
      | L_loop_stop, Running, _ =>
          if stop s then Some (goroutine w (close_done s) ReturnedLoop [])
          else None
      | L_stop_save e, _, Idle =>
          let (s', ev) := Stop_save e s in
          Some (caller w s' Saved (stops_returned w) ev)
      | L_stop_close, _, Saved =>
          if stop s then Some (crash w s "close of closed channel")
          else Some (caller w (close_stop s) Waiting (stops_returned w) [])
      | L_stop_wait, _, Waiting =>
          if done s then Some (caller w s Idle (S (stops_returned w)) [])
          else None
      | _, _, _ => None
      end
  end.

(** The steps of [ls] in order. *)
Fixpoint run (ls : list Label) (w : World) : option World :=
  match ls with
  | [] => Some w
  | l :: rest =>
      match step l w with
      | Some w' => run rest w'
      | None => None
      end
  end.

End WithJSON.

(** Counting in a trace. *)
Definition is_post (ev : Event) : bool :=
  match ev with E_Post _ _ _ => true | _ => false end.

Definition is_save (ev : Event) : bool :=
  match ev with E_Save _ => true | _ => false end.

Definition is_report (ev : Event) : bool :=
  match ev with
  | E_Log Debug _ | E_Post _ _ _ | E_ReadAll => true
  | _ => false
  end.

Definition is_error_log (ev : Event) : bool :=
  match ev with E_Log Error _ => true | _ => false end.

Definition posts (t : list Event) : nat := length (List.filter is_post t).
Definition saves (t : list Event) : nat := length (List.filter is_save t).

(** The merges of a trace all have [b] as their baseline. *)
Definition merges_against (b : Analytics) (t : list Event) : Prop :=
  forall b' c, In (E_Merge b' c) t -> b' = Some b.

(** ** Invariants of a run *)

(** While [Start] has not entered its loop, no report was made and
    the only saves are those of [Stop], one per call begun. *)
Definition before_loop (w : World) : Prop :=
  start_pc w = NotStarted \/ start_pc w = AwaitingGrace \/
  start_pc w = ReturnedGrace.

Definition quiet (w : World) : Prop :=
  before_loop w ->
  List.filter is_report (trace w) = [] /\
  saves (trace w) =
    (stops_returned w + match stop_pc w with Idle => 0 | _ => 1 end)%nat.

(** From the assignment of line 77 on, the baseline stays what it is
    and every merge is against it. *)
Definition settled (b : Analytics) (w : World) : Prop :=
  start_pc w <> NotStarted /\
  baseline (svc w) = Some b /\
  merges_against b (trace w).

(** Before line 77 there is no baseline and no merge. *)
Definition unsettled (w : World) : Prop :=
  start_pc w = NotStarted /\
  baseline (svc w) = None /\
  (forall b c, ~ In (E_Merge b c) (trace w)).

(** Once a call of [Stop] has closed [stop], it stays closed. *)
Definition stop_closed (w : World) : Prop :=
  (1 <= stops_returned w)%nat \/ stop_pc w = Waiting -> stop (svc w) = true.

(** ** What a trace and a world tell *)

(** The snapshot of the last save of a trace. *)
Fixpoint last_save (t : list Event) : option Analytics :=
  match t with
  | [] => None
  | ev :: rest =>
      match last_save rest, ev with
      | Some a, _ => Some a
      | None, E_Save a => Some a
      | None, _ => None
      end
  end.

(** [Start] has returned. *)
Definition returned (pc : StartPc) : bool :=
  match pc with
  | ReturnedGrace | ReturnedLoop => true
  | _ => false
  end.

(** The steps by which [Start], from where it stands, comes to its
    return once [stop] is closed. *)
Definition wind_down (pc : StartPc) : list Label :=
  match pc with
  | NotStarted => [L_start; L_grace_stop]
  | AwaitingGrace => [L_grace_stop]
  | Running => [L_loop_stop]
  | ReturnedGrace | ReturnedLoop => []
  end.

(** [done] is closed by the return of [Start] or by its panic. *)
Definition done_by_Start (w : World) : Prop :=
  done (svc w) = true -> returned (start_pc w) = true \/ panicked w <> None.

(** [stop] is closed by a call of [Stop] that got past line 126. *)
Definition stop_by_Stop (w : World) : Prop :=
  stop (svc w) = true ->
  stop_pc w = Waiting \/ (1 <= stops_returned w)%nat.

(** [Start] leaves its grace period by the timer or by [stop]. *)
Definition timer_or_stop (w : World) : Prop :=
  (timer_fired w = false -> before_loop w) /\
  (start_pc w = ReturnedGrace -> stop (svc w) = true) /\
  (start_pc w = ReturnedLoop -> stop (svc w) = true).

(** The counter stays between zero and the number of POSTs, while that
    number fits an [int]. *)
Definition counted (w : World) : Prop :=
  Z.of_nat (posts (trace w)) <= max_int ->
  0 <= uploads (svc w) <= Z.of_nat (posts (trace w)).

(** Every POST of a trace goes to the collector as JSON and carries
    [body]. *)
Definition posts_carry (body : bytes) (t : list Event) : Prop :=
  forall to ct b, In (E_Post to ct b) t ->
  to = url /\ ct = "application/json" /\ b = body.

Section Stored.
Context {codec : JSON}.

(** The storage is the one the service was built over, with the last
    snapshot saved, if any, under the key of the analytics. *)
Definition stored (st : Storage) (w : World) : Prop :=
  main (s_ (svc w)) =
  match last_save (trace w) with
  | Some a => <["analytics" := fst (json_Marshal a)]> (main st)
  | None => main st
  end.

End Stored.

End lifecycle.

(** ** Concrete inputs for the closed statements *)

Module inputs.

Import storage_db analytics_merge analytics lifecycle.

(** A snapshot with [BadgerMain] and [AppsCount] given and all else zero. *)
Definition snapshot (badgerMain appsCount : Z) : Analytics :=
  {| InstallID := ""; RunID := ""; Version := ""; Timestamp := Time_zero;
     UploadIndex := 0; GOOS := ""; GOARCH := ""; GoVersion := "";
     MemAlloc := 0; MemTotalAlloc := 0; MemSys := 0; MemNumGC := 0;
     BadgerMain := badgerMain; BadgerTrees := 0; BadgerDicts := 0;
     BadgerDimensions := 0; BadgerSegments := 0;
     ControllerIndex := 0; ControllerComparison := 0; ControllerDiff := 0;
     ControllerIngest := 0; ControllerRender := 0;
     SpyRbspy := 0; SpyPyspy := 0; SpyGospy := 0; SpyEbpfspy := 0;
     SpyPhpspy := 0; SpyDotnetspy := 0; SpyJavaspy := 0;
     AppsCount := appsCount |}.

(** A codec that writes [BadgerMain] and [AppsCount], one byte each, and
    reads them back, and fails on anything else. *)
Definition pair_Marshal (a : Analytics) : bytes * option error :=
  ([BadgerMain a mod 256; AppsCount a mod 256], None).

Definition pair_Unmarshal (v : bytes) (a : Analytics)
  : Analytics * option error :=
  match v with
  | [m; n] => (snapshot m n, None)
  | _ => (a, Some "unexpected end of JSON input")
  end.

Definition pair_codec : JSON :=
  {| json_Marshal := pair_Marshal; json_Unmarshal := pair_Unmarshal |}.

(** A codec whose [Marshal] fails. *)
Definition failing_codec : JSON :=
  {| json_Marshal := fun _ => ([], Some "json: unsupported value");
     json_Unmarshal := pair_Unmarshal |}.

(** Nothing was ever saved. *)
Definition empty_storage : Storage := {| main := ∅ |}.

(** [{BadgerMain: 10}] was saved by an earlier run. *)
Definition storage10 : Storage :=
  {| main := {[ "analytics" := [10; 0] ]} |}.

(** A build that gives [{BadgerMain: 3, AppsCount: 7}]. *)
Definition env37 : Env :=
  {| ms := {| Alloc := 0; TotalAlloc := 0; Sys := 0; NumGC := 0 |};
     DiskUsage := {[ "main" := 3 ]};
     p := {| Stats := ∅; AppsCount_ := 7 |};
     InstallID_ := ""; uuid_New := ""; build_Version := "";
     time_Now := Time_zero;
     runtime_GOOS := ""; runtime_GOARCH := ""; runtime_Version := "" |}.

(** The collector answers 200 and the body is read. *)
Definition net_ok : Net :=
  {| resp := Some {| StatusCode := 200; ReadAll_err := None |};
     err := None |}.

(** The collector answers 500 and the body is read. *)
Definition net_500 : Net :=
  {| resp := Some {| StatusCode := 500; ReadAll_err := None |};
     err := None |}.

(** The connection fails: no response, an error. *)
Definition net_refused : Net :=
  {| resp := None; err := Some "dial tcp: connection refused" |}.

(** The collector answers and reading the body fails. *)
Definition net_body_fails : Net :=
  {| resp := Some {| StatusCode := 200;
                     ReadAll_err := Some "unexpected EOF" |};
     err := None |}.

(** A service in its loop, with [{BadgerMain: 10}] as baseline. *)
Definition running10 : Service :=
  {| s_ := storage10; uploads := 1; stop := false; done := false;
     baseline := Some (snapshot 10 0) |}.

(** The run of a service that is stopped during its grace period. *)
Definition stopped_in_grace : list Label :=
  [L_start; L_stop_save env37; L_stop_close; L_grace_stop; L_stop_wait].

(** The run of a service up to its loop. *)
Definition up_to_loop : list Label :=
  [L_start; L_timer_fire; L_grace_timer env37 net_ok].

End inputs.

(** * Properties *)

Import reflect analytics_merge storage_db analytics lifecycle inputs.

(** ** The merge *)

Section Merge.

(** On the struct of the declaration the loop runs through its thirty
    fields and returns the zero snapshot it started from. *)
Lemma mergeAnalytics_zero (b c : Analytics) :
  mergeAnalytics (Some b) (Some c) = Ok Analytics_zero.
Proof. reflexivity. Qed.

Lemma nth_error_map_fst {A B} (l : list (A * B)) i a x :
  nth_error l i = Some (a, x) -> nth_error (map fst l) i = Some a.
Proof.
  revert i. induction l as [|[a' x'] l IH]; intros [|i]; simpl; try discriminate.
  - congruence.
  - apply IH.
Qed.

(** The [switch] of line 114 looks at the kind of the struct, which is
    none of the integer kinds: an iteration over a struct does nothing,
    whatever the kinds and tags of the fields. *)
Lemma merge_iteration_struct name bfs cname cfs rname rfs i :
  (i < length bfs)%nat ->
  merge_iteration (VStruct name bfs) (VStruct cname cfs) (VStruct rname rfs) i
  = Ok tt.
Proof.
  intros Hi. unfold merge_iteration. simpl.
  destruct (nth_error bfs i) as [[f x]|] eqn:E.
  - simpl. unfold TField. simpl.
    rewrite (nth_error_map_fst _ _ _ _ E). simpl.
    destruct (Lookup (Tag f) "type") as [t|]; [|reflexivity].
    destruct (String.eqb t "counter"); reflexivity.
  - apply nth_error_None in E. lia.
Qed.

Lemma merge_indices_struct name bfs cname cfs rname rfs indices :
  Forall (fun i => (i < length bfs)%nat) indices ->
  merge_indices (VStruct name bfs) (VStruct cname cfs) (VStruct rname rfs)
    indices = Ok tt.
Proof.
  induction 1 as [|i rest Hi _ IH]; simpl.
  - reflexivity.
  - rewrite merge_iteration_struct by exact Hi. simpl. exact IH.
Qed.

Lemma merge_loop_struct name bfs cname cfs rname rfs :
  merge_loop (VStruct name bfs) (VStruct cname cfs) (VStruct rname rfs)
  = Ok tt.
Proof.
  unfold merge_loop. simpl. apply merge_indices_struct.
  apply List.Forall_forall. intros i Hi. apply in_seq in Hi. lia.
Qed.

(** C1 (code at the failing input). The claim asks for
    [merge(B, C).f = B.f + C.f] on the five counters. With baseline
    [{BadgerMain: 10}] and current [{BadgerMain: 3, AppsCount: 7}] the
    code returns [BadgerMain = 0], not [13]; and for every pair of
    snapshots the five counters of the result are [0]. *)
Theorem mergeAnalytics_counters_not_added :
  (exists r,
     mergeAnalytics (Some (snapshot 10 0)) (Some (snapshot 3 7)) = Ok r /\
     BadgerMain r = 0 /\
     BadgerMain r <> BadgerMain (snapshot 10 0) + BadgerMain (snapshot 3 7)) /\
  (forall B C, exists r,
     mergeAnalytics (Some B) (Some C) = Ok r /\
     BadgerMain r = 0 /\ BadgerTrees r = 0 /\ BadgerDicts r = 0 /\
     BadgerDimensions r = 0 /\ BadgerSegments r = 0).
Proof.
  split.
  - exists Analytics_zero. repeat split. simpl. lia.
  - intros B C. exists Analytics_zero. repeat split.
Qed.

(** C2 (code at the failing input). The claim asks for
    [merge(B, C).g = C.g] on the fields that are not counters. With
    current [{BadgerMain: 3, AppsCount: 7}] the code returns
    [AppsCount = 0], not [7]; and for every pair of snapshots the result
    is the zero snapshot, whatever the current one holds. *)
Theorem mergeAnalytics_gauges_not_passed :
  (exists r,
     mergeAnalytics (Some (snapshot 10 0)) (Some (snapshot 3 7)) = Ok r /\
     AppsCount r = 0 /\
     AppsCount r <> AppsCount (snapshot 3 7)) /\
  (forall B C, exists r,
     mergeAnalytics (Some B) (Some C) = Ok r /\
     InstallID r = "" /\ RunID r = "" /\ Version r = "" /\
     Timestamp r = Time_zero /\ UploadIndex r = 0 /\ AppsCount r = 0).
Proof.
  split.
  - exists Analytics_zero. repeat split. simpl. lia.
  - intros B C. exists Analytics_zero. repeat split.
Qed.

(** C5. [mergeAnalytics] returns a value for every baseline and every
    current snapshot, the all-zero baseline included; and the loop
    returns without a panic on every struct, whatever the kinds and the
    tags of its fields, so that a field tagged as a counter whose kind
    cannot be summed is passed over; no [SetInt] was made on the way,
    since a [SetInt] never returns. *)
Theorem mergeAnalytics_total :
  (forall B C, exists r, mergeAnalytics (Some B) (Some C) = Ok r) /\
  (forall C, exists r, mergeAnalytics (Some Analytics_zero) (Some C) = Ok r) /\
  (forall name bfs cname cfs rname rfs,
     merge_loop (VStruct name bfs) (VStruct cname cfs) (VStruct rname rfs)
     = Ok tt) /\
  (forall v x, SetInt v x <> Ok tt).
Proof.
  repeat split.
  - intros B C. exists Analytics_zero. apply mergeAnalytics_zero.
  - intros C. exists Analytics_zero. apply mergeAnalytics_zero.
  - intros. apply merge_loop_struct.
  - intros v x. destruct v; discriminate.
Qed.

End Merge.

(** ** Reading the persisted snapshot *)

Section Read.
Context {codec : JSON}.

Lemma ReadAnalytics_stored (s : Storage) (v : bytes) :
  main s !! "analytics" = Some v ->
  ReadAnalytics s = Ok (fst (json_Unmarshal v Analytics_zero)).
Proof. intros H. unfold ReadAnalytics, badger.Get. rewrite H. reflexivity. Qed.

Lemma ReadAnalytics_absent (s : Storage) :
  main s !! "analytics" = None ->
  ReadAnalytics s = Panic nil_dereference.
Proof. intros H. unfold ReadAnalytics, badger.Get. rewrite H. reflexivity. Qed.

(** C4 (code at the failing input). The claim asks for the zero snapshot
    when nothing was ever stored. On the empty storage [txn.Get] gives a
    [nil] item, [v.Value] is called on it all the same, and the call
    panics. *)
Theorem ReadAnalytics_nothing_stored :
  ReadAnalytics empty_storage = Panic nil_dereference /\
  badger.Get (main empty_storage) "analytics"
  = (None, Some badger.ErrKeyNotFound).
Proof. split; reflexivity. Qed.

End Read.

(** ** The reporter *)

Section Report.
Context {codec : JSON}.

(** With a baseline in place the merge of [sendReport] returns. *)
Lemma sendReport_merge e s b :
  baseline s = Some b ->
  mergeAnalytics (baseline s) (Some (getAnalytics e s)) = Ok Analytics_zero.
Proof. intros ->. apply mergeAnalytics_zero. Qed.

Ltac sendReport_cases e n s Hb :=
  unfold sendReport;
  rewrite (sendReport_merge e s _ Hb); cbn [go.bind];
  let buf := fresh "buf" in
  let me := fresh "me" in
  destruct (json_Marshal Analytics_zero) as [buf [me|]] eqn:?;
  destruct n as [[[code [re|]]|] [pe|]]; cbn.

(** [sendReport] changes nothing of the service but [uploads], and its
    one merge is against the baseline of the service. *)
Lemma sendReport_frame e n s s' ev :
  sendReport e n s = Ok (s', ev) ->
  s_ s' = s_ s /\ stop s' = stop s /\ done s' = done s /\
  baseline s' = baseline s /\
  (forall b c, In (E_Merge b c) ev -> b = baseline s).
Proof.
  unfold sendReport.
  destruct (mergeAnalytics (baseline s) (Some (getAnalytics e s)))
    as [m|msg]; cbn [go.bind]; [|discriminate].
  destruct (json_Marshal m) as [buf [me|]];
    destruct n as [[[code [re|]]|] [pe|]]; cbn;
    intros [= <- <-]; repeat split;
    intros b c Hin; cbn in Hin; unfold log_error in Hin;
    intuition (try discriminate; congruence).
Qed.

(** C6, amended. With the baseline in place [sendReport] returns for
    every build and every outcome of the exchange, leaving all of the
    service but [uploads] as it was. When [json.Marshal] fails the error
    is logged and nothing is sent. Otherwise exactly one POST is made; a
    transport error is logged; a failure to read the body is logged; and
    a response whose body is read, whatever its status code, leaves no
    error in the log. *)
Theorem sendReport_returns e n s b :
  baseline s = Some b ->
  exists s' ev m,
    sendReport e n s = Ok (s', ev) /\
    mergeAnalytics (baseline s) (Some (getAnalytics e s)) = Ok m /\
    s_ s' = s_ s /\ stop s' = stop s /\ done s' = done s /\
    baseline s' = baseline s /\
    (posts ev <= 1)%nat /\
    (snd (json_Marshal m) <> None -> posts ev = 0%nat /\ In log_json ev) /\
    (snd (json_Marshal m) = None ->
       posts ev = 1%nat /\
       In (E_Post url "application/json" (fst (json_Marshal m))) ev /\
       (err n <> None -> In log_upload ev) /\
       (forall r, resp n = Some r -> ReadAll_err r <> None -> In log_body ev) /\
       (err n = None ->
        (forall r, resp n = Some r -> ReadAll_err r = None) ->
        List.filter is_error_log ev = [])).
Proof.
  intros Hb.
  destruct (sendReport e n s) as [[s' ev]|msg] eqn:Hs.
  - exists s', ev, Analytics_zero.
    destruct (sendReport_frame _ _ _ _ _ Hs) as (H1 & H2 & H3 & H4 & _).
    split; [reflexivity|]. split; [exact (sendReport_merge e s b Hb)|].
    repeat (split; [assumption|]).
    revert Hs. sendReport_cases e n s Hb; intros [= <- <-]; cbn;
      (split; [lia|]); (split; [intros Hm|intros Hm]);
      try congruence; cbn; repeat split; auto 10;
      try (intros; congruence);
      try (intros r [= <-]; cbn; congruence);
      try (intros r [= <-]; cbn; auto 10; congruence);
      try (intros _ Hr; specialize (Hr _ eq_refl); cbn in Hr; congruence).
  - exfalso. revert Hs. sendReport_cases e n s Hb; discriminate.
Qed.

End Report.

(** ** The upload counter *)

Section Uploads.
Context {codec : JSON}.

Lemma wrap64_small (z : Z) : min_int <= z <= max_int -> wrap64 z = z.
Proof.
  unfold min_int, max_int, wrap64. intros H.
  rewrite Z.mod_small; lia.
Qed.

(** C8, amended. After a [sendReport] that started with [uploads] below
    the largest [int], the counter is one more when the payload was
    serialized and the response, if one came, was read to its end, a
    transport error without a response included; it is unchanged when
    [json.Marshal] failed or when reading the body failed. So it never
    decreases. The next build carries it as [UploadIndex], and the
    [UploadIndex] of a merge does not depend on the baseline. *)
Theorem uploads_after_sendReport e n s b s' ev :
  baseline s = Some b ->
  min_int <= uploads s < max_int ->
  sendReport e n s = Ok (s', ev) ->
  exists m,
    mergeAnalytics (baseline s) (Some (getAnalytics e s)) = Ok m /\
    (snd (json_Marshal m) = None ->
     (forall r, resp n = Some r -> ReadAll_err r = None) ->
     uploads s' = uploads s + 1) /\
    (snd (json_Marshal m) <> None -> uploads s' = uploads s) /\
    (forall r, resp n = Some r -> ReadAll_err r <> None ->
     uploads s' = uploads s) /\
    uploads s <= uploads s' <= uploads s + 1 /\
    (forall e', UploadIndex (getAnalytics e' s') = uploads s') /\
    (forall b1 b2 c m1 m2,
       mergeAnalytics (Some b1) (Some c) = Ok m1 ->
       mergeAnalytics (Some b2) (Some c) = Ok m2 ->
       UploadIndex m1 = UploadIndex m2).
Proof.
  intros Hb Hu Hs. exists Analytics_zero.
  split; [exact (sendReport_merge e s b Hb)|].
  assert (Hw : wrap64 (uploads s + 1) = uploads s + 1)
    by (apply wrap64_small; unfold min_int, max_int in *; lia).
  assert (Hm : forall b1 b2 c m1 m2,
             mergeAnalytics (Some b1) (Some c) = Ok m1 ->
             mergeAnalytics (Some b2) (Some c) = Ok m2 ->
             UploadIndex m1 = UploadIndex m2).
  { intros b1 b2 c m1 m2. rewrite !mergeAnalytics_zero. congruence. }
  revert Hs. unfold sendReport.
  rewrite (sendReport_merge e s _ Hb); cbn [go.bind].
  destruct (json_Marshal Analytics_zero) as [buf [me|]] eqn:?;
    destruct n as [[[code [re|]]|] [pe|]]; cbn;
    intros [= <- <-]; cbn; rewrite ?Hw;
    repeat split; try lia; try congruence; try exact Hm;
    try (intros _ Hr; specialize (Hr _ eq_refl); cbn in Hr; congruence);
    try (intros r [= <-]; cbn; congruence).
Qed.

End Uploads.

(** ** The two parties over a run *)

Section Lifecycle.
Context {codec : JSON}.

#[local] Arguments sendReport : simpl never.
#[local] Arguments snapshot_cycle : simpl never.
#[local] Arguments ReadAnalytics : simpl never.
#[local] Arguments getAnalytics : simpl never.

Lemma run_app ls1 ls2 w :
  run (ls1 ++ ls2) w =
  match run ls1 w with
  | Some w1 => run ls2 w1
  | None => None
  end.
Proof.
  revert w. induction ls1 as [|l ls1 IH]; intros w; simpl.
  - reflexivity.
  - destruct (step l w); [apply IH|reflexivity].
Qed.

Lemma run_snoc ls l w w' :
  run (ls ++ [l]) w = Some w' ->
  exists w1, run ls w = Some w1 /\ step l w1 = Some w'.
Proof.
  rewrite run_app. destruct (run ls w) as [w1|]; [|discriminate].
  simpl. destruct (step l w1) as [w2|] eqn:E; [|discriminate].
  intros [= <-]. eauto.
Qed.

(** A property kept by every step holds after every run. *)
Lemma run_invariant (I : World -> Prop) :
  (forall l w w', I w -> step l w = Some w' -> I w') ->
  forall ls w w', I w -> run ls w = Some w' -> I w'.
Proof.
  intros Hstep ls. induction ls as [|l ls IH]; intros w w' Hw; simpl.
  - intros [= <-]. exact Hw.
  - destruct (step l w) as [w1|] eqn:E; [|discriminate].
    intros Hr. eapply IH; [|exact Hr]. eapply Hstep; eauto.
Qed.

(** The cycle of the [snapshot] ticker changes the storage only, and
    its one merge is against the baseline of the service. *)
Lemma snapshot_cycle_frame e s s' ev :
  snapshot_cycle e s = Ok (s', ev) ->
  uploads s' = uploads s /\ stop s' = stop s /\ done s' = done s /\
  baseline s' = baseline s /\
  (forall b c, In (E_Merge b c) ev -> b = baseline s) /\
  exists m,
    mergeAnalytics (baseline s) (Some (getAnalytics e s)) = Ok m /\
    ev = [E_Merge (baseline s) (getAnalytics e s); E_Save m].
Proof.
  unfold snapshot_cycle.
  destruct (mergeAnalytics (baseline s) (Some (getAnalytics e s)))
    as [m|msg]; cbn [go.bind]; [|discriminate].
  intros [= <- <-]. repeat split; eauto.
  intros b c Hin. cbn in Hin. intuition (try discriminate; congruence).
Qed.

(** Taking apart a step: the cases of [step] that lead somewhere. *)
Ltac step_cases H :=
  unfold step in H;
  match type of H with
  | context [panicked ?w] => destruct (panicked w) eqn:?; [discriminate|]
  end;
  repeat match type of H with
    | context [match ?x with _ => _ end] => destruct x eqn:?
    | context [if ?x then _ else _] => destruct x eqn:?
    end;
  try discriminate;
  injection H as <-.

Lemma quiet_step l w w' : quiet w -> step l w = Some w' -> quiet w'.
Proof.
  intros HI H. step_cases H.
  all: unfold quiet, before_loop, cycle in *.
  all: repeat match goal with
         | |- context [match ?r with Ok _ => _ | Panic _ => _ end] =>
             destruct r as [[? ?]|?]
         | E : Stop_save _ _ = _ |- _ =>
             unfold Stop_save in E; injection E as <- <-
         end.
  all: cbn; rewrite ?app_nil_r; intros Hpc.
  all: try (destruct Hpc as [Hpc|[Hpc|Hpc]]; discriminate).
  all: try (destruct HI as [H1 H2]; [tauto|]).
  all: try (split; [assumption|]).
  all: unfold saves in *; rewrite ?List.filter_app, ?length_app; cbn.
  all: try match goal with
         | E : stop_pc _ = _ |- _ => rewrite E in *
         end.
  all: try (rewrite ?app_nil_r; split; [assumption|]); try lia.
Qed.

Lemma quiet_fresh st : quiet (fresh st).
Proof. intros _. split; reflexivity. Qed.

(** C7, amended. In every run in which [Start] returned from the select
    of its grace period, that is, in which the stop signal was received
    there, no report was ever begun: nothing was logged by [sendReport],
    posted or read. And once the one call of [Stop] has returned,
    exactly one save has been made. *)
Theorem stop_received_in_grace st ls w :
  run ls (fresh st) = Some w ->
  start_pc w = ReturnedGrace ->
  List.filter is_report (trace w) = [] /\
  posts (trace w) = 0%nat /\
  (stop_pc w = Idle -> stops_returned w = 1%nat -> saves (trace w) = 1%nat).
Proof.
  intros Hrun Hpc.
  assert (Hq : quiet w).
  { eapply (run_invariant quiet); [exact quiet_step| |exact Hrun].
    apply quiet_fresh. }
  destruct Hq as [Hrep Hsav]; [right; right; exact Hpc|].
  split; [exact Hrep|]. split.
  - unfold posts. clear -Hrep. induction (trace w) as [|ev t IH]; [reflexivity|].
    simpl in *. destruct ev as [[|] ?| | | |]; simpl in *;
      try discriminate; auto.
  - intros Hi Hn. rewrite Hsav, Hi, Hn. reflexivity.
Qed.

Lemma merges_against_app b t1 t2 :
  merges_against b t1 -> merges_against b t2 -> merges_against b (t1 ++ t2).
Proof.
  intros H1 H2 b' c Hin. apply in_app_or in Hin as [Hin|Hin]; eauto.
Qed.

Lemma merges_against_nil b : merges_against b [].
Proof. intros b' c []. Qed.

Lemma settled_step b l w w' :
  settled b w -> step l w = Some w' -> settled b w'.
Proof.
  intros (Hpc & Hb & Hm) H. step_cases H.
  all: unfold settled, cycle in *.
  all: try congruence.
  all: repeat match goal with
         | |- context [match ?r with Ok _ => _ | Panic _ => _ end] =>
             let E := fresh "E" in destruct r as [[? ?]|?] eqn:E
         | E : Stop_save _ _ = _ |- _ =>
             unfold Stop_save in E; injection E as <- <-
         | E : sendReport _ _ _ = Ok _ |- _ =>
             apply sendReport_frame in E as (_ & _ & _ & ? & ?)
         | E : snapshot_cycle _ _ = Ok _ |- _ =>
             apply snapshot_cycle_frame in E as (_ & _ & _ & ? & ? & _)
         end.
  all: cbn; rewrite ?app_nil_r.
  all: repeat split; try congruence; try assumption.
  all: try (apply merges_against_app; [assumption|]).
  all: try (intros b' c Hin; cbn in Hin;
            intuition (try discriminate; congruence)).
  all: intros b' c Hin;
    match goal with
    | Hall : forall b c, In (E_Merge b c) ?t -> b = _ |- _ =>
        rewrite (Hall _ _ Hin)
    end; assumption.
Qed.

Lemma unsettled_fresh st : unsettled (fresh st).
Proof. repeat split. intros b c []. Qed.

(** A step from before line 77 either stays there or is line 77 itself,
    which reads the baseline from what is persisted at that moment. *)
Lemma unsettled_step l w w' :
  unsettled w -> step l w = Some w' ->
  unsettled w' \/
  exists b, ReadAnalytics (s_ (svc w)) = Ok b /\ settled b w'.
Proof.
  intros (Hpc & Hb & Hm) H. step_cases H.
  all: try congruence.
  all: repeat match goal with
         | E : Stop_save _ _ = _ |- _ =>
             unfold Stop_save in E; injection E as <- <-
         end.
  - right. exists v. split; [reflexivity|]. unfold settled. cbn.
    rewrite app_nil_r.
    repeat split; [discriminate|]. intros b' c Hin. destruct (Hm _ _ Hin).
  - left. repeat split; assumption.
  - left. unfold unsettled. cbn. repeat split; try assumption.
    intros b c Hin. apply in_app_or in Hin as [Hin|Hin].
    + exact (Hm _ _ Hin).
    + cbn in Hin. intuition discriminate.
  - left. repeat split; assumption.
  - left. unfold unsettled. cbn. rewrite app_nil_r. repeat split; assumption.
  - left. unfold unsettled. cbn. rewrite app_nil_r. repeat split; assumption.
Qed.

(** Every world of a run is before line 77, or has the baseline that
    line 77 read from the storage of an earlier world of the run. *)
Lemma run_settles st ls w :
  run ls (fresh st) = Some w ->
  unsettled w \/
  exists b ls0 w0,
    run ls0 (fresh st) = Some w0 /\ unsettled w0 /\
    ReadAnalytics (s_ (svc w0)) = Ok b /\ settled b w.
Proof.
  revert w. induction ls as [|l ls IH] using rev_ind; intros w Hrun.
  - injection Hrun as <-. left. apply unsettled_fresh.
  - apply run_snoc in Hrun as (w1 & Hrun & Hstep).
    destruct (IH _ Hrun) as [Hu|(b & ls0 & w0 & H0 & Hu0 & Hread & Hs)].
    + destruct (unsettled_step _ _ _ Hu Hstep) as [Hu'|(b & Hread & Hs)].
      * left. exact Hu'.
      * right. exists b, ls, w1. auto.
    + right. exists b, ls0, w0.
      split; [exact H0|]. split; [exact Hu0|]. split; [exact Hread|].
      eapply settled_step; eauto.
Qed.

(** C9. Once a run has given the service a baseline [b]: it was read
    by [ReadAnalytics], at line 77, from the storage of a world of the
    run in which there was no baseline yet; every merge made so far, by
    the snapshot ticker or by [sendReport], has [b] as its first
    argument; and however the run goes on, the baseline is still [b]
    and every merge is still against [b]. *)
Theorem baseline_set_once st ls w b :
  run ls (fresh st) = Some w ->
  baseline (svc w) = Some b ->
  (exists ls0 w0,
     run ls0 (fresh st) = Some w0 /\ start_pc w0 = NotStarted /\
     baseline (svc w0) = None /\ ReadAnalytics (s_ (svc w0)) = Ok b) /\
  merges_against b (trace w) /\
  (forall ls' w',
     run ls' w = Some w' ->
     baseline (svc w') = Some b /\ merges_against b (trace w')).
Proof.
  intros Hrun Hb.
  destruct (run_settles _ _ _ Hrun)
    as [(_ & Hn & _)|(b0 & ls0 & w0 & H0 & (Hpc0 & Hb0 & _) & Hread & Hs)].
  - congruence.
  - assert (b0 = b) as -> by (destruct Hs as (_ & Hb' & _); congruence).
    split; [exists ls0, w0; auto|].
    split; [apply Hs|].
    intros ls' w' Hrun'.
    assert (Hs' : settled b w').
    { eapply (run_invariant (settled b)); [|exact Hs|exact Hrun'].
      intros l x x'. apply settled_step. }
    split; apply Hs'.
Qed.

Lemma stop_closed_step l w w' :
  stop_closed w -> step l w = Some w' -> stop_closed w'.
Proof.
  intros HI H. step_cases H.
  all: unfold stop_closed, cycle in *.
  all: repeat match goal with
         | |- context [match ?r with Ok _ => _ | Panic _ => _ end] =>
             let E := fresh "E" in destruct r as [[? ?]|?] eqn:E
         | E : Stop_save _ _ = _ |- _ =>
             unfold Stop_save in E; injection E as <- <-
         | E : sendReport _ _ _ = Ok _ |- _ =>
             apply sendReport_frame in E as (_ & ? & _ & _ & _)
         | E : snapshot_cycle _ _ = Ok _ |- _ =>
             apply snapshot_cycle_frame in E as (_ & ? & _ & _ & _ & _)
         end.
  all: cbn; intros Hc; try reflexivity; try assumption.
  all: try (apply HI; destruct Hc as [Hc|Hc]; [left; lia|right; congruence]).
  all: try (rewrite H; apply HI; exact Hc).
  apply HI. right. assumption.
Qed.

Lemma stop_closed_fresh st : stop_closed (fresh st).
Proof. unfold stop_closed. cbn. intros [H|H]; [lia|discriminate]. Qed.

(** C10. In every run, once a call of [Stop] has returned, a further
    call saves a snapshot and then panics at line 126, on the close of
    the channel that the first call closed. *)
Theorem second_Stop_panics st ls w e :
  run ls (fresh st) = Some w ->
  panicked w = None ->
  stop_pc w = Idle ->
  (1 <= stops_returned w)%nat ->
  exists w',
    run [L_stop_save e; L_stop_close] w = Some w' /\
    panicked w' = Some "close of closed channel" /\
    trace w' = trace w ++ [E_Save (getAnalytics e (svc w))].
Proof.
  intros Hrun Hp Hi Hn.
  assert (Hc : stop (svc w) = true).
  { apply (run_invariant stop_closed stop_closed_step _ _ _
             (stop_closed_fresh st) Hrun). left. exact Hn. }
  eexists. split; [|split].
  - cbn [run]. unfold step at 1. rewrite Hp, Hi.
    unfold Stop_save. destruct (start_pc w);
      (unfold step; cbn; rewrite Hp, Hc; reflexivity).
  - reflexivity.
  - reflexivity.
Qed.

(** ** More on runs: what is sent and saved, and when *)

Lemma posts_app t1 t2 : posts (t1 ++ t2) = (posts t1 + posts t2)%nat.
Proof. unfold posts. rewrite List.filter_app. apply length_app. Qed.

Lemma saves_app t1 t2 : saves (t1 ++ t2) = (saves t1 + saves t2)%nat.
Proof. unfold saves. rewrite List.filter_app. apply length_app. Qed.

Lemma last_save_app t1 t2 :
  last_save (t1 ++ t2) =
  match last_save t2 with
  | Some a => Some a
  | None => last_save t1
  end.
Proof.
  induction t1 as [|ev t1 IH]; simpl.
  - destruct (last_save t2); reflexivity.
  - rewrite IH. destruct (last_save t2); reflexivity.
Qed.

(** What a [sendReport] that returns has done. *)
Lemma sendReport_effects e n s s' ev :
  sendReport e n s = Ok (s', ev) ->
  last_save ev = None /\ saves ev = 0%nat /\
  ((uploads s' = uploads s /\ (posts ev <= 1)%nat) \/
   (uploads s' = wrap64 (uploads s + 1) /\ posts ev = 1%nat)) /\
  (forall to ct body,
     In (E_Post to ct body) ev ->
     to = url /\ ct = "application/json" /\
     body = fst (json_Marshal Analytics_zero)) /\
  baseline s <> None.
Proof.
  unfold sendReport. destruct (baseline s) as [b|] eqn:Hb.
  - rewrite mergeAnalytics_zero. cbn [go.bind].
    destruct (json_Marshal Analytics_zero) as [buf [me|]] eqn:Em;
      destruct n as [[[code [re|]]|] [pe|]]; cbn;
      intros [= <- <-]; cbn;
      (split; [reflexivity|]); (split; [reflexivity|]);
      (split; [auto|]); (split; [|discriminate]);
      intros to ct body Hin; unfold log_error in Hin;
      intuition (try discriminate; congruence).
  - cbn. discriminate.
Qed.

Lemma sendReport_panics e n s msg :
  sendReport e n s = Panic msg -> baseline s = None.
Proof.
  unfold sendReport. destruct (baseline s) as [b|]; [|reflexivity].
  rewrite mergeAnalytics_zero. cbn [go.bind].
  destruct (json_Marshal Analytics_zero) as [buf [me|]];
    destruct n as [[[code [re|]]|] [pe|]]; cbn; discriminate.
Qed.

(** What a cycle of the snapshot ticker that returns has done. *)
Lemma snapshot_cycle_effects e s s' ev :
  snapshot_cycle e s = Ok (s', ev) ->
  s' = set_store s (SaveAnalytics (s_ s) Analytics_zero) /\
  ev = [E_Merge (baseline s) (getAnalytics e s); E_Save Analytics_zero] /\
  baseline s <> None.
Proof.
  unfold snapshot_cycle. destruct (baseline s) as [b|] eqn:Hb.
  - rewrite mergeAnalytics_zero. cbn. intros [= <- <-].
    repeat split. discriminate.
  - cbn. discriminate.
Qed.

Lemma snapshot_cycle_panics e s msg :
  snapshot_cycle e s = Panic msg -> baseline s = None.
Proof.
  unfold snapshot_cycle. destruct (baseline s) as [b|]; [|reflexivity].
  rewrite mergeAnalytics_zero. cbn. discriminate.
Qed.

Ltac open_cycles :=
  unfold cycle in *;
  repeat match goal with
    | |- context [match ?r with Ok _ => _ | Panic _ => _ end] =>
        let E := fresh "E" in destruct r as [[? ?]|?] eqn:E
    | E : Stop_save _ _ = _ |- _ =>
        unfold Stop_save in E; injection E as <- <-
    end.

Lemma done_by_Start_step l w w' :
  done_by_Start w -> step l w = Some w' -> done_by_Start w'.
Proof.
  intros HI H. step_cases H.
  all: unfold done_by_Start in *; open_cycles.
  all: repeat match goal with
         | E : sendReport _ _ _ = Ok _ |- _ =>
             apply sendReport_frame in E as (_ & _ & ? & _ & _)
         | E : snapshot_cycle _ _ = Ok _ |- _ =>
             apply snapshot_cycle_frame in E as (_ & _ & ? & _ & _ & _)
         end.
  all: cbn; intros Hd.
  all: try (right; discriminate).
  all: try (left; reflexivity).
  all: try match goal with
         | Hf : done _ = done _ |- _ => rewrite Hf in Hd
         end.
  all: destruct (HI Hd) as [Hr|Hp]; [|right; exact Hp].
  all: try (left; exact Hr).
  all: match goal with
       | E : start_pc _ = _ |- _ => rewrite E in Hr; discriminate
       end.
Qed.

Lemma done_by_Start_fresh st : done_by_Start (fresh st).
Proof. intros H. discriminate. Qed.

Lemma Stop_after_Start_step l w w' :
  done_by_Start w /\
  ((1 <= stops_returned w)%nat -> returned (start_pc w) = true) ->
  step l w = Some w' ->
  (1 <= stops_returned w')%nat -> returned (start_pc w') = true.
Proof.
  intros [Hd HI] H. step_cases H.
  all: open_cycles; cbn; intros Hn.
  all: try reflexivity.
  all: try (specialize (HI Hn); cbn in HI; try discriminate;
            first [exact HI | congruence]).
  match goal with
  | E : done _ = true |- _ => destruct (Hd E) as [Hr|Hp]
  end; [exact Hr|congruence].
Qed.

(** X1. [Stop] returns only after [Start] has returned: in every run
    in which a call of [Stop] has returned, [Start] has returned, at
    line 81 or at line 97. A [Stop] on a service whose [Start] does not
    run never returns. *)
Theorem Stop_returns_after_Start st ls w :
  run ls (fresh st) = Some w ->
  (1 <= stops_returned w)%nat ->
  start_pc w = ReturnedGrace \/ start_pc w = ReturnedLoop.
Proof.
  intros Hrun Hn.
  assert (HI : done_by_Start w /\
               ((1 <= stops_returned w)%nat -> returned (start_pc w) = true)).
  { eapply (run_invariant
              (fun w => done_by_Start w /\
                 ((1 <= stops_returned w)%nat ->
                  returned (start_pc w) = true))); [| |exact Hrun].
    - intros l x x' Hx Hs. split.
      + eapply done_by_Start_step; [apply Hx|exact Hs].
      + eapply Stop_after_Start_step; eauto.
    - split; [apply done_by_Start_fresh|]. cbn. lia. }
  destruct HI as [_ HI]. specialize (HI Hn).
  destruct (start_pc w); try discriminate; auto.
Qed.

Lemma after_return_step l w w' :
  returned (start_pc w) = true ->
  step l w = Some w' ->
  start_pc w' = start_pc w /\
  uploads (svc w') = uploads (svc w) /\
  baseline (svc w') = baseline (svc w) /\
  exists t, trace w' = trace w ++ t /\
            Forall (fun ev => is_save ev = true) t.
Proof.
  intros Hr H. step_cases H.
  all: try match goal with
         | E : start_pc _ = _ |- _ => rewrite E in Hr; discriminate
         end.
  all: open_cycles; cbn.
  all: repeat split; eexists; split; try reflexivity.
  all: try (rewrite app_nil_r; reflexivity).
  all: repeat constructor.
Qed.

(** X2. Once [Start] has returned, whatever steps follow leave [Start]
    where it is, and the counter and the baseline as they are, and add
    to the trace nothing but saves (those of further calls of [Stop]):
    no report, no POST, no merge. *)
Theorem nothing_but_saves_after_return ls w w' :
  start_pc w = ReturnedGrace \/ start_pc w = ReturnedLoop ->
  run ls w = Some w' ->
  start_pc w' = start_pc w /\
  uploads (svc w') = uploads (svc w) /\
  baseline (svc w') = baseline (svc w) /\
  exists t, trace w' = trace w ++ t /\
            Forall (fun ev => is_save ev = true) t /\
            posts (trace w') = posts (trace w).
Proof.
  intros Hr. revert w Hr. induction ls as [|l ls IH]; intros w Hr; simpl.
  - intros [= <-]. repeat split. exists []. rewrite app_nil_r.
    repeat split. constructor.
  - destruct (step l w) as [w1|] eqn:E; [|discriminate]. intros Hrun.
    assert (Hr' : returned (start_pc w) = true)
      by (destruct Hr as [-> | ->]; reflexivity).
    destruct (after_return_step _ _ _ Hr' E)
      as (Hpc & Hu & Hb & t1 & Ht1 & Hs1).
    destruct (IH w1 ltac:(rewrite Hpc; exact Hr) Hrun)
      as (Hpc' & Hu' & Hb' & t2 & Ht2 & Hs2 & Hp2).
    split; [congruence|]. split; [congruence|]. split; [congruence|].
    exists (t1 ++ t2). split; [rewrite Ht2, Ht1, <- app_assoc; reflexivity|].
    split; [apply Forall_app; split; assumption|].
    rewrite Hp2, Ht1, posts_app.
    assert (posts t1 = 0%nat) as ->; [|lia].
    clear -Hs1. unfold posts. induction Hs1 as [|ev t Hev _ IHt]; [reflexivity|].
    destruct ev; try discriminate. simpl. exact IHt.
Qed.

Lemma stop_by_Stop_step l w w' :
  stop_by_Stop w -> step l w = Some w' -> stop_by_Stop w'.
Proof.
  intros HI H. step_cases H.
  all: unfold stop_by_Stop in *; open_cycles.
  all: repeat match goal with
         | E : sendReport _ _ _ = Ok _ |- _ =>
             apply sendReport_frame in E as (_ & ? & _ & _ & _)
         | E : snapshot_cycle _ _ = Ok _ |- _ =>
             apply snapshot_cycle_frame in E as (_ & ? & _ & _ & _ & _)
         end.
  all: cbn; intros Hc.
  all: try (left; reflexivity).
  all: try match goal with
         | Hf : stop _ = stop _ |- _ => rewrite Hf in Hc
         end.
  all: try (destruct (HI Hc) as [Hw|Hn]; [left; exact Hw|right; exact Hn]).
  all: try (destruct (HI Hc) as [Hw|Hn]; [congruence|right; lia]).
  all: try (right; lia).
Qed.

Lemma stop_by_Stop_fresh st : stop_by_Stop (fresh st).
Proof. intros H. discriminate. Qed.

Lemma timer_or_stop_step l w w' :
  timer_or_stop w -> step l w = Some w' -> timer_or_stop w'.
Proof.
  intros (Ht & Hg & Hl) H. step_cases H.
  all: unfold timer_or_stop, before_loop in *; open_cycles.
  all: repeat match goal with
         | E : sendReport _ _ _ = Ok _ |- _ =>
             apply sendReport_frame in E as (_ & ? & _ & _ & _)
         | E : snapshot_cycle _ _ = Ok _ |- _ =>
             apply snapshot_cycle_frame in E as (_ & ? & _ & _ & _ & _)
         end.
  all: cbn.
  all: repeat split; intros Hx; try discriminate; try congruence; auto.
  all: destruct (Ht Hx) as [Hpc|[Hpc|Hpc]]; congruence.
Qed.

Lemma timer_or_stop_fresh st : timer_or_stop (fresh st).
Proof.
  unfold timer_or_stop, before_loop. cbn.
  repeat split; intros; try discriminate; auto.
Qed.

Lemma no_report_no_post t :
  List.filter is_report t = [] -> posts t = 0%nat.
Proof.
  unfold posts. induction t as [|ev t IH]; [reflexivity|].
  simpl. destruct ev as [[|] ?| | | |]; simpl; try discriminate; auto.
Qed.

(** X3. [Start] makes no report before the grace timer has fired: in
    every run, as long as the timer has not fired, nothing was logged by
    [sendReport], posted or read, and the saves made are those of
    [Stop], one for each call begun. *)
Theorem no_report_before_timer st ls w :
  run ls (fresh st) = Some w ->
  timer_fired w = false ->
  List.filter is_report (trace w) = [] /\
  posts (trace w) = 0%nat /\
  saves (trace w) =
    (stops_returned w + match stop_pc w with Idle => 0 | _ => 1 end)%nat.
Proof.
  intros Hrun Hf.
  assert (Ht : timer_or_stop w).
  { eapply (run_invariant timer_or_stop); [|apply timer_or_stop_fresh|eauto].
    intros l x x'. apply timer_or_stop_step. }
  assert (Hq : quiet w).
  { eapply (run_invariant quiet); [exact quiet_step|apply quiet_fresh|eauto]. }
  destruct Ht as (Ht & _ & _).
  destruct (Hq (Ht Hf)) as [Hrep Hsav].
  split; [exact Hrep|]. split; [apply no_report_no_post; exact Hrep|].
  exact Hsav.
Qed.

(** A save makes the storage readable. *)
Lemma ReadAnalytics_after_save s a :
  ReadAnalytics (SaveAnalytics s a)
  = Ok (fst (json_Unmarshal (fst (json_Marshal a)) Analytics_zero)).
Proof.
  apply ReadAnalytics_stored. unfold SaveAnalytics, badger.SetEntry. cbn.
  apply lookup_insert_eq.
Qed.

(** X4. A first call of [Stop] can always come to its end: in every
    run that has not panicked and in which [Stop] has not been called,
    the two statements of [Stop], the steps that take [Start] from
    where it stands to its return, and the receive of line 127 can be
    taken in this order; [Stop] has then returned, nothing has panicked,
    and one save has been added. This holds before [Start] has run as
    well: the save of [Stop] is then what [Start] reads. *)
Theorem Stop_can_return st ls w e :
  run ls (fresh st) = Some w ->
  panicked w = None ->
  stop_pc w = Idle ->
  stops_returned w = 0%nat ->
  exists w',
    run ([L_stop_save e; L_stop_close] ++ wind_down (start_pc w)
         ++ [L_stop_wait]) w = Some w' /\
    stops_returned w' = 1%nat /\
    stop_pc w' = Idle /\
    panicked w' = None /\
    returned (start_pc w') = true /\
    trace w' = trace w ++ [E_Save (getAnalytics e (svc w))].
Proof.
  intros Hrun Hp Hi Hn.
  assert (Hs : stop_by_Stop w).
  { eapply (run_invariant stop_by_Stop);
      [|apply stop_by_Stop_fresh|eauto].
    intros l x x'. apply stop_by_Stop_step. }
  assert (Ht : timer_or_stop w).
  { eapply (run_invariant timer_or_stop); [|apply timer_or_stop_fresh|eauto].
    intros l x x'. apply timer_or_stop_step. }
  assert (Hstop : stop (svc w) = false).
  { destruct (stop (svc w)) eqn:E; [|reflexivity].
    destruct (Hs E) as [Hw|Hr]; [congruence|lia]. }
  destruct Ht as (_ & Hg & Hl).
  destruct w as [s spc cpc k tf tr pn]. cbn in *. subst.
  destruct s as [sto u sp dn bl]. cbn in *. subst.
  destruct spc; cbn [wind_down app run].
  - unfold step; cbn. rewrite ReadAnalytics_after_save. cbn.
    eexists. split; [reflexivity|]. cbn. rewrite !app_nil_r.
    repeat split.
  - unfold step; cbn.
    eexists. split; [reflexivity|]. cbn. rewrite !app_nil_r.
    repeat split.
  - unfold step; cbn.
    eexists. split; [reflexivity|]. cbn. rewrite !app_nil_r.
    repeat split.
  - discriminate (Hg eq_refl).
  - discriminate (Hl eq_refl).
Qed.

Lemma stored_step st l w w' :
  stored st w -> step l w = Some w' -> stored st w'.
Proof.
  intros HI H. step_cases H.
  all: unfold stored in *; open_cycles.
  all: repeat match goal with
         | E : sendReport _ _ _ = Ok _ |- _ =>
             pose proof (sendReport_frame _ _ _ _ _ E) as (? & _);
             apply sendReport_effects in E as (? & _)
         | E : snapshot_cycle _ _ = Ok _ |- _ =>
             apply snapshot_cycle_effects in E as (-> & -> & _)
         end.
  all: cbn; rewrite ?app_nil_r, ?last_save_app; cbn.
  all: try assumption.
  all: try match goal with
         | Hl : last_save _ = None |- _ => rewrite Hl
         end.
  all: try congruence.
  all: unfold badger.SetEntry; rewrite HI;
    destruct (last_save (trace w)); [apply insert_insert_eq|reflexivity].
Qed.

(** X5. What the storage holds follows the saves: in every run, the
    database is the one the service was built over, except that the key
    of the analytics holds the encoding of the snapshot of the last
    save of the trace, if there was one; every other key is as it was. *)
Theorem storage_holds_last_save st ls w :
  run ls (fresh st) = Some w ->
  main (s_ (svc w)) !! "analytics" =
    match last_save (trace w) with
    | Some a => Some (fst (json_Marshal a))
    | None => main st !! "analytics"
    end /\
  (forall k, k <> "analytics" -> main (s_ (svc w)) !! k = main st !! k).
Proof.
  intros Hrun.
  assert (HI : stored st w).
  { eapply (run_invariant (stored st)); [| |exact Hrun].
    - intros l x x'. apply stored_step.
    - unfold stored. reflexivity. }
  unfold stored in HI. rewrite HI. destruct (last_save (trace w)).
  - split; [apply lookup_insert_eq|].
    intros k Hk. apply lookup_insert_ne. congruence.
  - split; [reflexivity|]. reflexivity.
Qed.

Lemma counted_step l w w' :
  counted w -> step l w = Some w' -> counted w'.
Proof.
  intros HI H. step_cases H.
  all: unfold counted in *; open_cycles.
  all: repeat match goal with
         | E : sendReport _ _ _ = Ok _ |- _ =>
             apply sendReport_effects in E as (_ & _ & ? & _)
         | E : snapshot_cycle _ _ = Ok _ |- _ =>
             apply snapshot_cycle_effects in E as (-> & -> & _)
         end.
  all: cbn -[posts]; rewrite ?app_nil_r, ?posts_app; try assumption.
  all: repeat match goal with
         | |- context [posts (?a :: ?b)] =>
             change (posts (a :: b)) with 0%nat
         end.
  all: rewrite ?Nat.add_0_r; try assumption.
  all: intros Hle;
    match goal with
    | Hc : _ \/ _ |- _ => destruct Hc as [[-> Hp]|[-> Hp]]
    end.
  all: try (specialize (HI ltac:(lia)); lia).
  all: rewrite Hp in *; specialize (HI ltac:(lia));
    rewrite wrap64_small by (unfold min_int, max_int in *; lia); lia.
Qed.

(** X6. The counter of uploads is never negative and never above the
    number of POSTs made, in every run whose number of POSTs fits an
    [int]. *)
Theorem uploads_at_most_posts st ls w :
  run ls (fresh st) = Some w ->
  Z.of_nat (posts (trace w)) <= max_int ->
  0 <= uploads (svc w) <= Z.of_nat (posts (trace w)).
Proof.
  intros Hrun.
  eapply (run_invariant counted); [|   |exact Hrun].
  - intros l x x'. apply counted_step.
  - intros _. cbn. lia.
Qed.

Lemma ReadAnalytics_panic s msg :
  ReadAnalytics s = Panic msg ->
  msg = nil_dereference /\ main s !! "analytics" = None.
Proof.
  destruct (main s !! "analytics") as [v|] eqn:E.
  - rewrite (ReadAnalytics_stored _ _ E). discriminate.
  - rewrite (ReadAnalytics_absent _ E). intros [= <-]. auto.
Qed.

(** X7. A run knows two panics and no other. Either [Start] panicked at
    its first read, with a nil dereference, on a storage that holds no
    snapshot; or a call of [Stop] that came after one that had returned
    panicked on the close of the closed channel. Past its first read,
    the goroutine of [Start] never panics. *)
Theorem only_two_panics st ls w msg :
  run ls (fresh st) = Some w ->
  panicked w = Some msg ->
  (msg = nil_dereference /\ start_pc w = NotStarted /\
   main (s_ (svc w)) !! "analytics" = None) \/
  (msg = "close of closed channel" /\ stop_pc w = Saved /\
   (1 <= stops_returned w)%nat).
Proof.
  revert w. induction ls as [|l ls _] using rev_ind; intros w Hrun Hp.
  - injection Hrun as <-. discriminate.
  - apply run_snoc in Hrun as (w1 & Hrun & Hstep).
    pose proof (run_settles _ _ _ Hrun) as Hset.
    assert (Hs : stop_by_Stop w1).
    { eapply (run_invariant stop_by_Stop);
        [|apply stop_by_Stop_fresh|eauto].
      intros l' x x'. apply stop_by_Stop_step. }
    assert (Hbase : start_pc w1 <> NotStarted -> baseline (svc w1) <> None).
    { intros Hne.
      destruct Hset as [(Hpc & _)|(b & _ & _ & _ & _ & _ & _ & Hb & _)];
        congruence. }
    step_cases Hstep.
    all: open_cycles; cbn in Hp; try congruence.
    all: try match goal with
           | E : sendReport _ _ _ = Panic _ |- _ =>
               apply sendReport_panics in E
           | E : snapshot_cycle _ _ = Panic _ |- _ =>
               apply snapshot_cycle_panics in E
           end.
    all: try (exfalso; apply Hbase; congruence).
    + left. injection Hp as <-.
      match goal with
      | E : ReadAnalytics _ = Panic _ |- _ =>
          apply ReadAnalytics_panic in E as [-> Hnone]
      end.
      cbn. auto.
    + right. injection Hp as <-. cbn. repeat split; [assumption|].
      match goal with
      | E : stop _ = true |- _ => destruct (Hs E) as [Hw|Hn]
      end; [congruence|exact Hn].
Qed.

Lemma posts_carry_app body t1 t2 :
  posts_carry body t1 -> posts_carry body t2 -> posts_carry body (t1 ++ t2).
Proof.
  intros H1 H2 to ct b Hin. apply in_app_or in Hin as [Hin|Hin]; eauto.
Qed.

Lemma posts_carry_step l w w' :
  posts_carry (fst (json_Marshal Analytics_zero)) (trace w) ->
  step l w = Some w' ->
  posts_carry (fst (json_Marshal Analytics_zero)) (trace w').
Proof.
  intros HI H. step_cases H.
  all: open_cycles.
  all: repeat match goal with
         | E : sendReport _ _ _ = Ok _ |- _ =>
             apply sendReport_effects in E as (_ & _ & _ & ? & _)
         | E : snapshot_cycle _ _ = Ok _ |- _ =>
             apply snapshot_cycle_effects in E as (-> & -> & _)
         end.
  all: cbn; rewrite ?app_nil_r; try assumption.
  all: apply posts_carry_app; try assumption.
  all: intros to ct b Hin; cbn in Hin; intuition discriminate.
Qed.

(** X8. What is posted does not depend on what is built: in every run,
    every POST goes to the collector with content type
    [application/json], and its body is the encoding of the zero
    snapshot, whatever the builds and the baseline of the run were. *)
Theorem every_post_carries_zero st ls w to ct body :
  run ls (fresh st) = Some w ->
  In (E_Post to ct body) (trace w) ->
  to = url /\ ct = "application/json" /\
  body = fst (json_Marshal Analytics_zero).
Proof.
  intros Hrun Hin.
  assert (HI : posts_carry (fst (json_Marshal Analytics_zero)) (trace w)).
  { eapply (run_invariant
              (fun w => posts_carry (fst (json_Marshal Analytics_zero))
                          (trace w))); [| |exact Hrun].
    - intros l x x'. apply posts_carry_step.
    - intros ? ? ? []. }
  exact (HI _ _ _ Hin).
Qed.

(** X9. What the first statement of [Start] does is decided by the
    storage at that moment. With no snapshot stored, [Start] panics and
    no step follows. With one stored, [Start] goes on to its grace
    period with the decoded snapshot as baseline. And when the save of
    [Stop] comes first, [Start] does not panic, and its baseline is
    what decodes from the build that [Stop] saved. *)
Theorem Start_reads_what_is_stored w :
  start_pc w = NotStarted ->
  panicked w = None ->
  (main (s_ (svc w)) !! "analytics" = None ->
   exists w', step L_start w = Some w' /\
              panicked w' = Some nil_dereference /\
              forall l, step l w' = None) /\
  (forall v, main (s_ (svc w)) !! "analytics" = Some v ->
   exists w', step L_start w = Some w' /\
              panicked w' = None /\ start_pc w' = AwaitingGrace /\
              baseline (svc w') = Some (fst (json_Unmarshal v Analytics_zero)) /\
              trace w' = trace w) /\
  (forall e, stop_pc w = Idle ->
   exists w', run [L_stop_save e; L_start] w = Some w' /\
              panicked w' = None /\ start_pc w' = AwaitingGrace /\
              baseline (svc w') =
                Some (fst (json_Unmarshal
                             (fst (json_Marshal (getAnalytics e (svc w))))
                             Analytics_zero))).
Proof.
  intros Hpc Hp. split; [|split].
  - intros Hnone. unfold step. rewrite Hp, Hpc.
    rewrite (ReadAnalytics_absent _ Hnone).
    eexists. split; [reflexivity|]. split; [reflexivity|].
    intros l. reflexivity.
  - intros v Hv. unfold step. rewrite Hp, Hpc.
    rewrite (ReadAnalytics_stored _ _ Hv).
    eexists. split; [reflexivity|]. cbn. rewrite app_nil_r. auto.
  - intros e Hi. cbn [run]. unfold step at 1. rewrite Hp, Hi.
    unfold Stop_save. unfold step. cbn. rewrite Hp, Hpc. cbn.
    rewrite ReadAnalytics_after_save.
    eexists. split; [reflexivity|]. cbn. auto.
Qed.

End Lifecycle.

(** ** The statements at concrete inputs *)

(** C3 (code at the failing input). The claim asks for the snapshot
    saved by [Stop] to be the merge against the baseline. In a service
    that is in its loop with baseline [{BadgerMain: 10}], and whose
    build gives [{BadgerMain: 3, AppsCount: 7}], [Stop] saves the build
    as it is, with no merge, where the snapshot ticker in the same
    world saves the result of the merge; and for every service the one
    thing [Stop] does at line 125 is to save the build. *)
Theorem Stop_saves_the_build_unmerged :
  (exists w w' w'',
     run (codec := pair_codec) up_to_loop (fresh storage10) = Some w /\
     start_pc w = Running /\
     baseline (svc w) = Some (snapshot 10 0) /\
     step (codec := pair_codec) (L_stop_save env37) w = Some w' /\
     trace w' = trace w ++ [E_Save (getAnalytics env37 (svc w))] /\
     BadgerMain (getAnalytics env37 (svc w)) = 3 /\
     main (s_ (svc w')) !! "analytics" = Some [3; 7] /\
     step (codec := pair_codec) (L_snapshot env37) w = Some w'' /\
     trace w'' = trace w ++ [E_Merge (Some (snapshot 10 0))
                               (getAnalytics env37 (svc w));
                             E_Save Analytics_zero] /\
     getAnalytics env37 (svc w) <> Analytics_zero) /\
  (forall (codec : JSON) e s,
     snd (Stop_save e s) = [E_Save (getAnalytics e s)]).
Proof.
  split.
  - do 3 eexists.
    split; [reflexivity|]. split; [reflexivity|]. split; [reflexivity|].
    split; [reflexivity|]. split; [reflexivity|]. split; [reflexivity|].
    split; [vm_compute; reflexivity|].
    split; [reflexivity|]. split; [reflexivity|].
    intros H. apply (f_equal BadgerMain) in H. vm_compute in H. discriminate.
  - reflexivity.
Qed.

(** C6 as stated fails: a response with status 500 whose body is read
    leaves no error in the log. *)
Lemma sendReport_500_not_logged :
  ~ (forall (codec : JSON) e n s r s' ev,
       resp n = Some r ->
       StatusCode r < 200 \/ 300 <= StatusCode r ->
       sendReport e n s = Ok (s', ev) ->
       Exists (fun x => is_error_log x = true) ev).
Proof.
  intros H.
  assert (Hc : 500 < 200 \/ 300 <= 500) by (right; lia).
  epose proof (H pair_codec env37 net_500 running10 _ _ _
                 eq_refl Hc eq_refl) as HE.
  apply List.Exists_exists in HE as (x & Hin & Hx).
  cbn in Hin. intuition subst; discriminate.
Qed.

(** The reporter when the connection is refused. *)
Lemma sendReport_returns_witness :
  baseline running10 = Some (snapshot 10 0) /\
  exists s' ev,
    sendReport (codec := pair_codec) env37 net_refused running10
    = Ok (s', ev) /\
    posts ev = 1%nat /\ In log_upload ev.
Proof.
  split; [reflexivity|].
  destruct (sendReport_returns (codec := pair_codec) env37 net_refused
              running10 (snapshot 10 0) eq_refl)
    as (s' & ev & m & Hs & _ & _ & _ & _ & _ & _ & _ & Hok).
  destruct (Hok eq_refl) as (Hp & _ & Hup & _).
  exists s', ev. split; [exact Hs|]. split; [exact Hp|].
  apply Hup. discriminate.
Defined.

(** C7 as stated fails: [Stop] is called during the grace period, the
    timer fires while [Stop] is saving, and [Start] goes on to report. *)
Lemma stop_before_timer_still_uploads :
  ~ (forall (codec : JSON) st ls1 e ls2 w1 w2 w,
       run ls1 (fresh st) = Some w1 ->
       start_pc w1 = AwaitingGrace ->
       timer_fired w1 = false ->
       step (L_stop_save e) w1 = Some w2 ->
       run ls2 w2 = Some w ->
       posts (trace w) = 0%nat /\
       (stop_pc w = Idle -> stops_returned w = 1%nat ->
        saves (trace w) = 1%nat)).
Proof.
  intros H.
  epose proof (H pair_codec storage10 [L_start] env37
                 [L_timer_fire; L_grace_timer env37 net_ok; L_snapshot env37;
                  L_stop_close; L_loop_stop; L_stop_wait]
                 _ _ _ eq_refl eq_refl eq_refl eq_refl eq_refl) as [Hp _].
  vm_compute in Hp. discriminate.
Qed.

(** A service stopped in its grace period: no report, one save. *)
Lemma stop_received_in_grace_witness :
  exists w,
    run (codec := pair_codec) stopped_in_grace (fresh storage10) = Some w /\
    start_pc w = ReturnedGrace /\
    posts (trace w) = 0%nat /\ saves (trace w) = 1%nat.
Proof.
  eexists. split; [reflexivity|]. split; [reflexivity|].
  destruct (stop_received_in_grace (codec := pair_codec) storage10
              stopped_in_grace _ eq_refl eq_refl) as (_ & Hp & Hs).
  split; [exact Hp|]. apply Hs; reflexivity.
Defined.

(** C8 as stated fails: when reading the body fails the counter stays
    where it was. *)
Lemma uploads_not_incremented :
  ~ (forall (codec : JSON) e n s b s' ev,
       baseline s = Some b ->
       min_int <= uploads s < max_int ->
       sendReport e n s = Ok (s', ev) ->
       uploads s < uploads s').
Proof.
  intros H.
  assert (Hu : min_int <= uploads running10 < max_int)
    by (unfold min_int, max_int; cbn; lia).
  epose proof (H pair_codec env37 net_body_fails running10 _ _ _
                 eq_refl Hu eq_refl) as Hlt.
  vm_compute in Hlt. discriminate.
Qed.

(** The counter when the connection is refused: one more. *)
Lemma uploads_after_sendReport_witness :
  baseline running10 = Some (snapshot 10 0) /\
  min_int <= uploads running10 < max_int /\
  exists s' ev,
    sendReport (codec := pair_codec) env37 net_refused running10
    = Ok (s', ev) /\
    uploads s' = 2 /\
    UploadIndex (getAnalytics env37 s') = 2.
Proof.
  split; [reflexivity|].
  assert (Hu : min_int <= uploads running10 < max_int)
    by (unfold min_int, max_int; cbn; lia).
  split; [exact Hu|].
  do 2 eexists. split; [reflexivity|].
  destruct (uploads_after_sendReport (codec := pair_codec) env37 net_refused
              running10 (snapshot 10 0) _ _ eq_refl Hu eq_refl)
    as (m & _ & Hinc & _ & _ & _ & Hidx & _).
  split.
  - rewrite Hinc; [reflexivity|reflexivity|discriminate].
  - apply Hidx.
Defined.

(** A service that reported once and then took a snapshot: both merges
    are against the baseline read at the start. *)
Lemma baseline_set_once_witness :
  exists w,
    run (codec := pair_codec) (up_to_loop ++ [L_snapshot env37])
      (fresh storage10) = Some w /\
    baseline (svc w) = Some (snapshot 10 0) /\
    ReadAnalytics (codec := pair_codec) storage10 = Ok (snapshot 10 0) /\
    In (E_Merge (Some (snapshot 10 0)) (getAnalytics env37 (svc w)))
      (trace w) /\
    merges_against (snapshot 10 0) (trace w).
Proof.
  eexists. split; [reflexivity|]. split; [reflexivity|].
  split; [reflexivity|].
  split; [cbn; auto 10|].
  apply (baseline_set_once (codec := pair_codec) storage10
           (up_to_loop ++ [L_snapshot env37]) _ (snapshot 10 0)
           eq_refl eq_refl).
Defined.

(** A service stopped in its grace period, and stopped again. *)
Lemma second_Stop_panics_witness :
  exists w w',
    run (codec := pair_codec) stopped_in_grace (fresh storage10) = Some w /\
    panicked w = None /\ stop_pc w = Idle /\ (1 <= stops_returned w)%nat /\
    run (codec := pair_codec) [L_stop_save env37; L_stop_close] w = Some w' /\
    panicked w' = Some "close of closed channel".
Proof.
  eexists.
  destruct (second_Stop_panics (codec := pair_codec) storage10
              stopped_in_grace _ env37 eq_refl eq_refl eq_refl
              (le_n 1))
    as (w' & Hrun & Hp & _).
  exists w'.
  split; [reflexivity|]. split; [reflexivity|]. split; [reflexivity|].
  split; [apply le_n|]. split; [exact Hrun|exact Hp].
Defined.

(** ** More on the storage, the merge and the build *)

Section Storage.
Context {codec : JSON}.

(** X10. [ReadAnalytics] panics exactly when the key of the analytics
    is absent, and then with a nil dereference. When the key is there it
    returns what [json.Unmarshal] has left in the zero snapshot, whether
    or not the decoding reported an error. *)
Theorem ReadAnalytics_panics_iff_absent (s : Storage) :
  (ReadAnalytics s = Panic nil_dereference <->
   main s !! "analytics" = None) /\
  (forall msg, ReadAnalytics s = Panic msg -> msg = nil_dereference) /\
  (forall v, main s !! "analytics" = Some v ->
   ReadAnalytics s = Ok (fst (json_Unmarshal v Analytics_zero))).
Proof.
  split; [split|split].
  - intros H. destruct (main s !! "analytics") as [v|] eqn:E; [|reflexivity].
    rewrite (ReadAnalytics_stored _ _ E) in H. discriminate.
  - apply ReadAnalytics_absent.
  - intros msg H. destruct (main s !! "analytics") as [v|] eqn:E.
    + rewrite (ReadAnalytics_stored _ _ E) in H. discriminate.
    + rewrite (ReadAnalytics_absent _ E) in H. congruence.
  - apply ReadAnalytics_stored.
Qed.

(** X11. Save then read: when the encoding of a snapshot decodes to
    that snapshot, [ReadAnalytics] after [SaveAnalytics] returns it,
    whatever the storage held before. *)
Theorem SaveAnalytics_then_ReadAnalytics (s : Storage) (a : Analytics) :
  fst (json_Unmarshal (fst (json_Marshal a)) Analytics_zero) = a ->
  ReadAnalytics (SaveAnalytics s a) = Ok a.
Proof.
  intros H. rewrite (ReadAnalytics_stored _ (fst (json_Marshal a))).
  - rewrite H. reflexivity.
  - unfold SaveAnalytics, badger.SetEntry. cbn. apply lookup_insert_eq.
Qed.

(** X12. [SaveAnalytics] writes one key and the last save wins: after
    a save the key of the analytics holds what [json.Marshal] gave, error
    or not; a second save replaces the first; every other key is left
    as it was. *)
Theorem SaveAnalytics_last_wins (s : Storage) (a b : Analytics) :
  main (SaveAnalytics s a) !! "analytics" = Some (fst (json_Marshal a)) /\
  SaveAnalytics (SaveAnalytics s a) b = SaveAnalytics s b /\
  (forall k, k <> "analytics" ->
   main (SaveAnalytics s a) !! k = main s !! k).
Proof.
  unfold SaveAnalytics, badger.SetEntry. cbn. split; [|split].
  - apply lookup_insert_eq.
  - f_equal. apply insert_insert_eq.
  - intros k Hk. apply lookup_insert_ne. congruence.
Qed.

(** X13. The merge needs both of its pointers: with a nil baseline or a
    nil current snapshot [mergeAnalytics] panics with a nil dereference,
    and so do [sendReport] and the cycle of the snapshot ticker on a
    service that has no baseline. *)
Theorem mergeAnalytics_nil :
  (forall c, mergeAnalytics None c = Panic nil_dereference) /\
  (forall b, mergeAnalytics b None = Panic nil_dereference) /\
  (forall e n s, baseline s = None ->
   sendReport e n s = Panic nil_dereference /\
   snapshot_cycle e s = Panic nil_dereference).
Proof.
  split; [|split].
  - intros [c|]; reflexivity.
  - intros [b|]; reflexivity.
  - intros e n s H. split.
    + unfold sendReport. rewrite H. reflexivity.
    + unfold snapshot_cycle. rewrite H. reflexivity.
Qed.




End Storage.

(** ** The further statements at concrete inputs *)

(** A stopped service: [Start] has returned. *)
Lemma Stop_returns_after_Start_witness :
  exists w,
    run (codec := pair_codec) stopped_in_grace (fresh storage10) = Some w /\
    (1 <= stops_returned w)%nat /\
    (start_pc w = ReturnedGrace \/ start_pc w = ReturnedLoop).
Proof.
  eexists. split; [reflexivity|]. split; [apply le_n|].
  apply (Stop_returns_after_Start (codec := pair_codec) storage10
           stopped_in_grace _ eq_refl (le_n 1)).
Defined.

(** A stopped service on which [Stop] begins again: one more save and
    no POST. *)
Lemma nothing_but_saves_after_return_witness :
  exists w w',
    run (codec := pair_codec) stopped_in_grace (fresh storage10) = Some w /\
    (start_pc w = ReturnedGrace \/ start_pc w = ReturnedLoop) /\
    run (codec := pair_codec) [L_stop_save env37] w = Some w' /\
    start_pc w' = start_pc w /\ posts (trace w') = posts (trace w).
Proof.
  do 2 eexists. split; [reflexivity|].
  match goal with
  | |- (start_pc ?w = _ \/ _) /\ _ =>
      assert (Hr : start_pc w = ReturnedGrace \/ start_pc w = ReturnedLoop)
        by (left; reflexivity)
  end.
  split; [exact Hr|]. split; [reflexivity|].
  destruct (nothing_but_saves_after_return (codec := pair_codec)
              [L_stop_save env37] _ _ Hr eq_refl)
    as (Hpc & _ & _ & t & _ & _ & Hp).
  split; [exact Hpc|exact Hp].
Defined.

(** A service in its grace period on which [Stop] has saved: no POST. *)
Lemma no_report_before_timer_witness :
  exists w,
    run (codec := pair_codec) [L_start; L_stop_save env37] (fresh storage10)
    = Some w /\
    timer_fired w = false /\
    posts (trace w) = 0%nat /\ saves (trace w) = 1%nat.
Proof.
  eexists. split; [reflexivity|]. split; [reflexivity|].
  destruct (no_report_before_timer (codec := pair_codec) storage10
              [L_start; L_stop_save env37] _ eq_refl eq_refl)
    as (_ & Hp & Hs).
  split; [exact Hp|exact Hs].
Defined.

(** A service in its loop: [Stop] can return. *)
Lemma Stop_can_return_witness :
  exists w w',
    run (codec := pair_codec) up_to_loop (fresh storage10) = Some w /\
    panicked w = None /\ stop_pc w = Idle /\ stops_returned w = 0%nat /\
    run (codec := pair_codec)
      [L_stop_save env37; L_stop_close; L_loop_stop; L_stop_wait] w
    = Some w' /\
    stops_returned w' = 1%nat /\ panicked w' = None.
Proof.
  eexists.
  destruct (Stop_can_return (codec := pair_codec) storage10 up_to_loop _
              env37 eq_refl eq_refl eq_refl eq_refl)
    as (w' & Hrun & Hn & _ & Hp & _).
  exists w'. split; [reflexivity|]. split; [reflexivity|].
  split; [reflexivity|]. split; [reflexivity|].
  split; [exact Hrun|]. split; [exact Hn|exact Hp].
Defined.

(** After a cycle of the snapshot ticker the storage holds the encoding
    of the zero snapshot. *)
Lemma storage_holds_last_save_witness :
  exists w,
    run (codec := pair_codec) (up_to_loop ++ [L_snapshot env37])
      (fresh storage10) = Some w /\
    last_save (trace w) = Some Analytics_zero /\
    main (s_ (svc w)) !! "analytics" = Some [0; 0].
Proof.
  eexists. split; [reflexivity|]. split; [reflexivity|].
  destruct (storage_holds_last_save (codec := pair_codec) storage10
              (up_to_loop ++ [L_snapshot env37]) _ eq_refl) as [H _].
  exact H.
Defined.

(** A service in its loop after its first report: one POST, counter 1. *)
Lemma uploads_at_most_posts_witness :
  exists w,
    run (codec := pair_codec) up_to_loop (fresh storage10) = Some w /\
    Z.of_nat (posts (trace w)) <= max_int /\
    0 <= uploads (svc w) <= Z.of_nat (posts (trace w)).
Proof.
  eexists. split; [reflexivity|].
  assert (H : Z.of_nat 1 <= max_int) by (unfold max_int; cbn; lia).
  split; [exact H|].
  apply (uploads_at_most_posts (codec := pair_codec) storage10 up_to_loop _
           eq_refl H).
Defined.

(** A first run: [Start] panics on the empty storage. *)
Lemma only_two_panics_witness :
  exists w,
    run (codec := pair_codec) [L_start] (fresh empty_storage) = Some w /\
    panicked w = Some nil_dereference /\
    ((nil_dereference = nil_dereference /\ start_pc w = NotStarted /\
      main (s_ (svc w)) !! "analytics" = None) \/
     (nil_dereference = "close of closed channel" /\ stop_pc w = Saved /\
      (1 <= stops_returned w)%nat)).
Proof.
  eexists. split; [reflexivity|]. split; [reflexivity|].
  apply (only_two_panics (codec := pair_codec) empty_storage [L_start] _
           nil_dereference eq_refl eq_refl).
Defined.

(** The first report of a service with baseline [{BadgerMain: 10}] and
    build [{BadgerMain: 3, AppsCount: 7}]: the body is that of the zero
    snapshot. *)
Lemma every_post_carries_zero_witness :
  exists w,
    run (codec := pair_codec) up_to_loop (fresh storage10) = Some w /\
    In (E_Post url "application/json" [0; 0]) (trace w) /\
    [0; 0] = fst (json_Marshal (JSON := pair_codec) Analytics_zero).
Proof.
  eexists. split; [reflexivity|].
  assert (Hin : In (E_Post url "application/json" [0; 0])
                  (trace (goroutine
                            (fire (goroutine (fresh storage10)
                                     (set_baseline (NewService storage10)
                                        (Some (snapshot 10 0)))
                                     AwaitingGrace []))
                            (set_uploads
                               (set_baseline (NewService storage10)
                                  (Some (snapshot 10 0))) 1)
                            Running
                            [E_Log Debug "sending analytics report";
                             E_Merge (Some (snapshot 10 0))
                               (getAnalytics env37
                                  (set_baseline (NewService storage10)
                                     (Some (snapshot 10 0))));
                             E_Post url "application/json" [0; 0];
                             E_ReadAll])))
    by (cbn; auto 10).
  split; [exact Hin|].
  apply (every_post_carries_zero (codec := pair_codec) storage10 up_to_loop
           _ url "application/json" [0; 0] eq_refl Hin).
Defined.

(** A first run in which [Stop] saves before [Start] reads. *)
Lemma Start_reads_what_is_stored_witness :
  start_pc (fresh empty_storage) = NotStarted /\
  panicked (fresh empty_storage) = None /\
  exists w',
    run (codec := pair_codec) [L_stop_save env37; L_start]
      (fresh empty_storage) = Some w' /\
    panicked w' = None /\ start_pc w' = AwaitingGrace.
Proof.
  split; [reflexivity|]. split; [reflexivity|].
  destruct (Start_reads_what_is_stored (codec := pair_codec)
              (fresh empty_storage) eq_refl eq_refl) as (_ & _ & H).
  destruct (H env37 eq_refl) as (w' & Hrun & Hp & Hpc & _).
  exists w'. auto.
Defined.

(** [{BadgerMain: 3, AppsCount: 7}] saved and read back. *)
Lemma SaveAnalytics_then_ReadAnalytics_witness :
  fst (json_Unmarshal (JSON := pair_codec)
         (fst (json_Marshal (JSON := pair_codec) (snapshot 3 7)))
         Analytics_zero) = snapshot 3 7 /\
  ReadAnalytics (codec := pair_codec)
    (SaveAnalytics (codec := pair_codec) empty_storage (snapshot 3 7))
  = Ok (snapshot 3 7).
Proof.
  split; [reflexivity|].
  apply (SaveAnalytics_then_ReadAnalytics (codec := pair_codec)
           empty_storage (snapshot 3 7) eq_refl).
Defined.
